(** * A verified model of the calculator in [script.js]

    The calculator keeps four module-level variables ([currentInput],
    [previousValue], [operator], [justEvaluated]) and mutates them from one
    handler per key.  The handlers are embedded here as functions from state
    to state.  Its numbers are JavaScript Numbers, that is IEEE 754 binary64
    values; they are modelled with [spec_float] at precision 53, and the
    built-ins the script calls ([Number], [String], [toFixed], the string
    methods) follow their ECMAScript definitions with exact integer
    arithmetic. *)

From Stdlib Require Import ZArith Bool List Lia.
From Stdlib Require Import Ascii String.
From Stdlib Require Import Floats.SpecFloat.
Import ListNotations.

Local Open Scope string_scope.

(** ** Strings: the methods of [String.prototype] the script uses *)

Module JSString.

(** [s.startsWith(p)] *)
Definition startsWith (s p : string) : bool := String.prefix p s.

(** [s.endsWith(p)]: [p] is a suffix of [s]. *)
Fixpoint endsWith (s p : string) : bool :=
  (s =? p) ||
  match s with
  | EmptyString => false
  | String _ s' => endsWith s' p
  end.

(** [s.includes(p)]: [p] occurs somewhere in [s]. *)
Fixpoint includes (s p : string) : bool :=
  String.prefix p s ||
  match s with
  | EmptyString => false
  | String _ s' => includes s' p
  end.

(** [s.slice(start, end)], with [end] omitted when [None].  Negative
    indices count from the end of the string and both are clamped to
    [0 .. s.length]. *)
Definition slice (s : string) (start : Z) (end_ : option Z) : string :=
  let len := Z.of_nat (String.length s) in
  let from := if (start <? 0)%Z then Z.max (len + start) 0 else Z.min start len in
  let to :=
    match end_ with
    | None => len
    | Some e => if (e <? 0)%Z then Z.max (len + e) 0 else Z.min e len
    end in
  substring (Z.to_nat from) (Z.to_nat (Z.max (to - from) 0)) s.

(** A string of [n] copies of [c]. *)
Fixpoint repeat_char (c : ascii) (n : nat) : string :=
  match n with
  | O => EmptyString
  | S n' => String c (repeat_char c n')
  end.

(** Number of occurrences of a character, used to state the invariants. *)
Fixpoint count (c : ascii) (s : string) : nat :=
  match s with
  | EmptyString => 0
  | String a s' => (if Ascii.eqb a c then 1 else 0) + count c s'
  end.

End JSString.

(** ** Numbers: IEEE 754 binary64 and the conversions to and from text *)

Module JSNumber.

Local Open Scope Z_scope.

Definition number := spec_float.

Definition prec : Z := 53.
Definition emax : Z := 1024.

Definition NaN : number := S754_nan.

Definition add : number -> number -> number := SFadd prec emax.
Definition sub : number -> number -> number := SFsub prec emax.
Definition mul : number -> number -> number := SFmul prec emax.
Definition div : number -> number -> number := SFdiv prec emax.

(** [x === 0]: true of both zeros, false of NaN. *)
Definition is_zero (x : number) : bool :=
  match x with
  | S754_zero _ => true
  | _ => false
  end.

(** Structural equality of two values: same sign, mantissa and exponent. *)
Definition same (x y : number) : bool :=
  match x, y with
  | S754_zero a, S754_zero b => Bool.eqb a b
  | S754_infinity a, S754_infinity b => Bool.eqb a b
  | S754_nan, S754_nan => true
  | S754_finite a m e, S754_finite b n f => Bool.eqb a b && (m =? n)%positive && (e =? f)
  | _, _ => false
  end.

(** *** Decimal digits *)

Definition is_digit (c : ascii) : bool :=
  let n := nat_of_ascii c in (48 <=? n)%nat && (n <=? 57)%nat.

Definition digit_val (c : ascii) : Z := Z.of_nat (nat_of_ascii c) - 48.

Definition digit_char (d : Z) : ascii := ascii_of_nat (48 + Z.to_nat d).

(** The value of a run of decimal digits, most significant first. *)
Fixpoint digits_value (acc : Z) (s : string) : Z :=
  match s with
  | EmptyString => acc
  | String c s' => digits_value (10 * acc + digit_val c) s'
  end.

Fixpoint digits_aux (fuel : nat) (n : Z) (acc : string) : string :=
  match fuel with
  | O => acc
  | S f =>
      let acc' := String (digit_char (n mod 10)) acc in
      if n <? 10 then acc' else digits_aux f (n / 10) acc'
  end.

(** The decimal digits of a non-negative integer, without leading zeros
    ("0" for zero). *)
Definition digits (n : Z) : string :=
  digits_aux (S (Z.to_nat (Z.log2 n))) n EmptyString.

(** Splits a string into its longest prefix of decimal digits and the rest. *)
Fixpoint span_digits (s : string) : string * string :=
  match s with
  | EmptyString => (EmptyString, EmptyString)
  | String c s' =>
      if is_digit c
      then let '(d, r) := span_digits s' in (String c d, r)
      else (EmptyString, s)
  end.

(** *** From a decimal to the nearest binary64 value *)

(** The number nearest to [(-1)^neg * m * 10^e] for [m >= 0], ties to the
    even mantissa.  A decimal so large or so small that every such value
    rounds to an infinity or to zero is answered without computing the
    power of ten. *)
Definition of_decimal (neg : bool) (m e : Z) : number :=
  match m with
  | Z0 => S754_zero neg
  | Zpos p =>
      let nd := Z.of_nat (String.length (digits m)) in
      if 310 <=? nd + e then S754_infinity neg
      else if nd + e <=? -324 then S754_zero neg
      else if 0 <=? e then binary_round prec emax neg (Z.to_pos (m * 10 ^ e)) 0
      else SFdiv prec emax (S754_finite neg p 0)
                           (S754_finite false (Z.to_pos (10 ^ (- e))) 0)
  | Zneg _ => S754_nan
  end.

(** *** [Number::toString]: the shortest decimal that reads back *)

(** A positive finite value [m * 2^e] as a fraction of two positive integers. *)
Definition ratio (m : positive) (e : Z) : Z * Z :=
  if 0 <=? e then (Zpos m * 2 ^ e, 1) else (Zpos m, 2 ^ (- e)).

Fixpoint scale_up (fuel : nat) (num den j : Z) : Z :=
  match fuel with
  | O => j
  | S f => if den <=? num * 10 then j else scale_up f (num * 10) den (j + 1)
  end.

(** The integer [n] with [10^(n-1) <= num/den < 10^n]. *)
Definition decimal_exponent (num den : Z) : Z :=
  if den <=? num then Z.of_nat (String.length (digits (num / den)))
  else - scale_up (S (Z.to_nat (Z.log2 den))) num den 0.

(** [num/den / 10^q] as a fraction. *)
Definition scaled (num den q : Z) : Z * Z :=
  if q <=? 0 then (num * 10 ^ (- q), den) else (num, den * 10 ^ q).

(** The [k]-digit decimals next to [x = num/den] are [lo * 10^(n-k)] and
    [(lo+1) * 10^(n-k)].  [pick] returns the one that is positive and
    reads back as [x], the nearer one when both do and the even one on a
    tie.  With [force] the nearer one is returned without reading it back. *)
Definition pick (force : bool) (x : number) (num den n k : Z) : option (Z * Z) :=
  let q := n - k in
  let '(a, b) := scaled num den q in
  let lo := a / b in
  let r := a mod b in
  let hi := lo + 1 in
  let lo_ok := (0 <? lo) && (force || same (of_decimal false lo q) x) in
  let hi_ok := force || same (of_decimal false hi q) x in
  let nearer :=
    match 2 * r ?= b with
    | Lt => lo
    | Gt => hi
    | Eq => if Z.even lo then lo else hi
    end in
  match lo_ok, hi_ok with
  | true, true => Some (nearer, q)
  | true, false => Some (lo, q)
  | false, true => Some (hi, q)
  | false, false => None
  end.

(** Tries [k], [k+1], ... digits; after [fuel] failures the nearest decimal
    with the next number of digits is taken. *)
Fixpoint shortest (fuel : nat) (x : number) (num den n k : Z) : Z * Z :=
  match fuel with
  | O =>
      match pick true x num den n k with
      | Some r => r
      | None => (1, 0)
      end
  | S f =>
      match pick false x num den n k with
      | Some r => r
      | None => shortest f x num den n (k + 1)
      end
  end.

(** [s * 10^q] with the trailing zeros of [s] moved into [q]. *)
Fixpoint strip_zeros (fuel : nat) (s q : Z) : Z * Z :=
  match fuel with
  | O => (s, q)
  | S f =>
      if (0 <? s) && (s mod 10 =? 0) then strip_zeros f (s / 10) (q + 1)
      else (s, q)
  end.

(** The text of the positive decimal [s * 10^q]: plain digits while the
    decimal exponent [n] is within [-5 .. 21], exponent notation beyond. *)
Definition format_decimal (s q : Z) : string :=
  let d := digits s in
  let k := Z.of_nat (String.length d) in
  let n := q + k in
  if (k <=? n) && (n <=? 21) then
    d ++ JSString.repeat_char "0" (Z.to_nat (n - k))
  else if (0 <? n) && (n <=? 21) then
    substring 0 (Z.to_nat n) d ++ "." ++ substring (Z.to_nat n) (Z.to_nat (k - n)) d
  else if (-6 <? n) && (n <=? 0) then
    "0." ++ JSString.repeat_char "0" (Z.to_nat (- n)) ++ d
  else
    let e := n - 1 in
    let es := (if e <? 0 then "-" else "+") ++ digits (Z.abs e) in
    if k =? 1 then d ++ "e" ++ es
    else substring 0 1 d ++ "." ++ substring 1 (Z.to_nat (k - 1)) d ++ "e" ++ es.

Definition positive_toString (m : positive) (e : Z) : string :=
  let '(num, den) := ratio m e in
  let n := decimal_exponent num den in
  let '(s, q) := shortest 16 (S754_finite false m e) num den n 1 in
  let '(s', q') := strip_zeros (S (Z.to_nat (Z.log2 s))) s q in
  format_decimal s' q'.

(** [String(x)] and the interpolation of a number in a template. *)
Definition toString (x : number) : string :=
  match x with
  | S754_nan => "NaN"
  | S754_zero _ => "0"
  | S754_infinity neg => (if neg then "-" else EmptyString) ++ "Infinity"
  | S754_finite neg m e => (if neg then "-" else EmptyString) ++ positive_toString m e
  end.

(** *** [Number.prototype.toFixed] *)

(** The integer [n] written with [f] digits after the decimal point. *)
Definition fixed_format (n f : Z) : string :=
  let m := digits n in
  if f =? 0 then m
  else
    let k := Z.of_nat (String.length m) in
    let m' := if k <=? f then JSString.repeat_char "0" (Z.to_nat (f + 1 - k)) ++ m else m in
    let k' := Z.of_nat (String.length m') in
    substring 0 (Z.to_nat (k' - f)) m' ++ "." ++ substring (Z.to_nat (k' - f)) (Z.to_nat f) m'.

(** [x.toFixed(f)]: the integer nearest to [x * 10^f], the larger one on a
    tie, written with [f] fractional digits; values from [10^21] on and the
    non-finite ones are written as [String(x)]. *)
Definition toFixed (x : number) (f : Z) : string :=
  match x with
  | S754_nan | S754_infinity _ => toString x
  | S754_zero _ => fixed_format 0 f
  | S754_finite neg m e =>
      let '(num, den) := ratio m e in
      (if neg then "-" else EmptyString) ++
      (if 10 ^ 21 * den <=? num then positive_toString m e
       else fixed_format ((2 * num * 10 ^ f + den) / (2 * den)) f)
  end.

(** *** [Number(s)]: StringToNumber *)

Definition is_space (c : ascii) : bool :=
  let n := nat_of_ascii c in
  ((9 <=? n)%nat && (n <=? 13)%nat) || (n =? 32)%nat.

Fixpoint trim_start (s : string) : string :=
  match s with
  | EmptyString => EmptyString
  | String c s' => if is_space c then trim_start s' else s
  end.

Fixpoint trim_end (s : string) : string :=
  match s with
  | EmptyString => EmptyString
  | String c s' =>
      let t := trim_end s' in
      if is_space c && (t =? EmptyString)%string then EmptyString else String c t
  end.

(** The value of a digit in a radix up to 16, if it is one. *)
Definition radix_digit (radix : Z) (c : ascii) : option Z :=
  let n := Z.of_nat (nat_of_ascii c) in
  let v :=
    if (48 <=? n) && (n <=? 57) then n - 48
    else if (97 <=? n) && (n <=? 102) then n - 87
    else if (65 <=? n) && (n <=? 70) then n - 55
    else radix in
  if v <? radix then Some v else None.

Fixpoint radix_value (radix acc : Z) (s : string) : option Z :=
  match s with
  | EmptyString => Some acc
  | String c s' =>
      match radix_digit radix c with
      | Some v => radix_value radix (radix * acc + v) s'
      | None => None
      end
  end.

(** [0x], [0o] and [0b] literals; [None] when [s] is not of that shape. *)
Definition parse_nondecimal (s : string) : option number :=
  match s with
  | String "0" (String c (String d r)) =>
      let radix :=
        if (Ascii.eqb c "x" || Ascii.eqb c "X")%char then 16
        else if (Ascii.eqb c "o" || Ascii.eqb c "O")%char then 8
        else if (Ascii.eqb c "b" || Ascii.eqb c "B")%char then 2
        else 0 in
      match radix_value radix 0 (String d r) with
      | Some v => Some (of_decimal false v 0)
      | None => None
      end
  | _ => None
  end.

(** The exponent part that may end a decimal literal; [None] when the text
    is neither empty nor a well-formed exponent. *)
Definition parse_exponent (s : string) : option Z :=
  match s with
  | EmptyString => Some 0
  | String c r =>
      if (Ascii.eqb c "e" || Ascii.eqb c "E")%char then
        let '(neg, r') :=
          match r with
          | String "+" t => (false, t)
          | String "-" t => (true, t)
          | _ => (false, r)
          end in
        let '(d, rest) := span_digits r' in
        if (d =? EmptyString)%string || negb (rest =? EmptyString)%string then None
        else Some (if neg then - digits_value 0 d else digits_value 0 d)
      else None
  end.

(** An unsigned decimal literal: [Infinity], or digits with an optional
    fraction and exponent. *)
Definition parse_unsigned (neg : bool) (s : string) : number :=
  if (s =? "Infinity")%string then S754_infinity neg
  else
    let '(ip, r1) := span_digits s in
    let '(fp, r2) :=
      match r1 with
      | String "." t => span_digits t
      | _ => (EmptyString, r1)
      end in
    if (ip =? EmptyString)%string && (fp =? EmptyString)%string then NaN
    else
      match parse_exponent r2 with
      | None => NaN
      | Some ex => of_decimal neg (digits_value 0 (ip ++ fp)) (ex - Z.of_nat (String.length fp))
      end.

(** [Number(s)] and unary [+s] of a string: the empty or blank string is
    [+0], a numeric literal is its rounded value, anything else is NaN. *)
Definition ofString (s : string) : number :=
  let t := trim_end (trim_start s) in
  if (t =? EmptyString)%string then S754_zero false
  else
    match parse_nondecimal t with
    | Some v => v
    | None =>
        match t with
        | String "+" r => parse_unsigned false r
        | String "-" r => parse_unsigned true r
        | _ => parse_unsigned false t
        end
    end.

End JSNumber.

(** ** The calculator *)

Module Calculator.

Import JSString.
Export JSNumber.

(** The four module-level variables of the script.  [None] is [null]. *)
Record state : Type := mkState {
  currentInput : string;
  previousValue : option number;
  operator : option string;
  justEvaluated : bool
}.

(** The values the variables are declared with. *)
Definition initial : state :=
  {| currentInput := "0"; previousValue := None; operator := None;
     justEvaluated := false |}.

(** The truth value of [operator] in a condition: [null] and the empty
    string are false. *)
Definition truthy (o : option string) : bool :=
  match o with
  | Some s => negb (s =? EmptyString)
  | None => false
  end.

(** The three symbols are outside ASCII and are held as their UTF-8
    bytes. *)
Definition prettyOp (op : string) : string :=
  if op =? "/" then "÷"
  else if op =? "*" then "×"
  else if op =? "-" then "−"
  else op.

(** The two lines [render] writes: the text of [prev] and of [curr]. *)
Definition render (st : state) : string * string :=
  (match previousValue st, operator st with
   | Some p, Some op =>
       if truthy (Some op) then toString p ++ " " ++ prettyOp op else EmptyString
   | _, _ => EmptyString
   end,
   currentInput st).

(** [s.replace(/^0+(?=\d)/, '')]: drops the leading zeros that are followed
    by a digit. *)
Fixpoint strip_leading_zeros (s : string) : string :=
  match s with
  | String "0" r =>
      match r with
      | String c _ => if is_digit c then strip_leading_zeros r else s
      | EmptyString => s
      end
  | _ => s
  end.

Definition normalizeNumberString (s : string) : string :=
  if (s =? "0") || startsWith s "0." then s
  else strip_leading_zeros s.

(** The default of the parameter [max] of [clampLength]. *)
Definition max_default : Z := 14.

Definition clampLength (s : string) (max : Z) : string :=
  if (Z.of_nat (String.length s) <=? max)%Z then s
  else slice s 0 (Some max).

Definition inputToNumber (st : state) : number :=
  ofString (currentInput st).

(** [compute] returns [null], here [None], for a division by zero. *)
Definition compute (a : number) (op : string) (b : number) : option number :=
  if op =? "+" then Some (add a b)
  else if op =? "-" then Some (sub a b)
  else if op =? "*" then Some (mul a b)
  else if op =? "/" then (if is_zero b then None else Some (div a b))
  else Some b.

(** [+result.toFixed(10)] *)
Definition round10 (result : number) : number :=
  ofString (toFixed result 10).

(** The number literal [100]. *)
Definition hundred : number := of_decimal false 100 0.

Definition handleDigit (d : string) (st : state) : state :=
  if justEvaluated st then
    {| currentInput := d; previousValue := previousValue st;
       operator := operator st; justEvaluated := false |}
  else
    let c :=
      if currentInput st =? "0" then d
      else clampLength (currentInput st ++ d) max_default in
    {| currentInput := normalizeNumberString c;
       previousValue := previousValue st; operator := operator st;
       justEvaluated := justEvaluated st |}.

Definition handleDot (st : state) : state :=
  if justEvaluated st then
    {| currentInput := "0."; previousValue := previousValue st;
       operator := operator st; justEvaluated := false |}
  else if negb (includes (currentInput st) ".") then
    {| currentInput := clampLength (currentInput st ++ ".") max_default;
       previousValue := previousValue st; operator := operator st;
       justEvaluated := justEvaluated st |}
  else st.

(** On a division by zero the chained computation is abandoned: the
    handler shows "Error", forgets the pending operation and returns before
    the new operator is stored. *)
Definition handleOperator (op : string) (st : state) : state :=
  let currVal := inputToNumber st in
  let proceed (pv : number) :=
    {| currentInput := "0"; previousValue := Some pv; operator := Some op;
       justEvaluated := false |} in
  match previousValue st, operator st with
  | None, _ => proceed currVal
  | Some pv, Some o =>
      if truthy (Some o) && negb (justEvaluated st) then
        match compute pv o currVal with
        | None =>
            {| currentInput := "Error"; previousValue := None;
               operator := None; justEvaluated := justEvaluated st |}
        | Some result => proceed (round10 result)
        end
      else proceed pv
  | Some pv, None => proceed pv
  end.

Definition handleEquals (st : state) : state :=
  match previousValue st, operator st with
  | Some pv, Some o =>
      if truthy (Some o) then
        let currVal := inputToNumber st in
        let c :=
          match compute pv o currVal with
          | None => "Error"
          | Some result => toString (round10 result)
          end in
        {| currentInput := c; previousValue := None; operator := None;
           justEvaluated := true |}
      else st
  | _, _ => st
  end.

Definition handleClear (st : state) : state := initial.

Definition handleDelete (st : state) : state :=
  if justEvaluated st then
    {| currentInput := "0"; previousValue := previousValue st;
       operator := operator st; justEvaluated := false |}
  else
    let s := currentInput st in
    let c :=
      if (String.length s <=? 1)%nat then "0"
      else
        let t := slice s 0 (Some (-1)%Z) in
        if endsWith t "." then
          (let u := slice t 0 (Some (-1)%Z) in if u =? EmptyString then "0" else u)
        else t in
    {| currentInput := normalizeNumberString c;
       previousValue := previousValue st; operator := operator st;
       justEvaluated := justEvaluated st |}.

Definition handlePercent (st : state) : state :=
  let val := inputToNumber st in
  {| currentInput := clampLength (toString (div val hundred)) max_default;
     previousValue := previousValue st; operator := operator st;
     justEvaluated := justEvaluated st |}.

Definition handleSign (st : state) : state :=
  let s := currentInput st in
  if s =? "0" then st
  else
    {| currentInput := if startsWith s "-" then slice s 1 None else "-" ++ s;
       previousValue := previousValue st; operator := operator st;
       justEvaluated := justEvaluated st |}.

(** *** The input events *)

(** The keys the two listeners accept: a digit matches [/^\d$/], an
    operator is one of the four symbols. *)
Inductive digit : Type := D0 | D1 | D2 | D3 | D4 | D5 | D6 | D7 | D8 | D9.

Definition digit_key (d : digit) : string :=
  match d with
  | D0 => "0" | D1 => "1" | D2 => "2" | D3 => "3" | D4 => "4"
  | D5 => "5" | D6 => "6" | D7 => "7" | D8 => "8" | D9 => "9"
  end.

Inductive opkey : Type := Plus | Minus | Times | Divide.

Definition op_key (o : opkey) : string :=
  match o with
  | Plus => "+" | Minus => "-" | Times => "*" | Divide => "/"
  end.

Inductive event : Type :=
  | Digit (d : digit)
  | Dot
  | Operator (o : opkey)
  | Equals
  | Clear
  | Delete
  | Percent
  | Sign.

(** What the click and keydown listeners do with one event. *)
Definition step (st : state) (ev : event) : state :=
  match ev with
  | Digit d => handleDigit (digit_key d) st
  | Dot => handleDot st
  | Operator o => handleOperator (op_key o) st
  | Equals => handleEquals st
  | Clear => handleClear st
  | Delete => handleDelete st
  | Percent => handlePercent st
  | Sign => handleSign st
  end.

Definition run (st : state) (evs : list event) : state :=
  fold_left step evs st.

(** *** The two listeners *)

(** [/^\d$/.test(s)]: [s] is one decimal digit. *)
Definition is_digit_key (s : string) : bool :=
  match s with
  | String c EmptyString => is_digit c
  | _ => false
  end.

(** [["+", "-", "*", "/"].includes(s)] *)
Definition is_operator_key (s : string) : bool :=
  (s =? "+") || (s =? "-") || (s =? "*") || (s =? "/").

(** The click listener.  [btn] is [None] when the click is not inside a
    button; otherwise it holds [dataset.value] and [dataset.action] of the
    button, each [None] when the attribute is missing. *)
Definition onClick (btn : option (option string * option string))
    (st : state) : state :=
  match btn with
  | None => st
  | Some (val, action) =>
      let by_action :=
        match action with
        | Some a =>
            if a =? "clear" then handleClear st
            else if a =? "delete" then handleDelete st
            else if a =? "equals" then handleEquals st
            else if a =? "percent" then handlePercent st
            else if a =? "sign" then handleSign st
            else st
        | None => st
        end in
      match val with
      | Some v =>
          if negb (v =? EmptyString) then
            if is_digit_key v then handleDigit v st
            else if v =? "." then handleDot st
            else if is_operator_key v then handleOperator v st
            else by_action
          else by_action
      | None => by_action
      end
  end.

(** The keydown listener on the key [k].  The second component tells
    whether [preventDefault] was called. *)
Definition onKeydown (k : string) (st : state) : state * bool :=
  if is_digit_key k then (handleDigit k st, false)
  else if k =? "." then (handleDot st, false)
  else if (k =? "+") || (k =? "-") || (k =? "*") || (k =? "/") then
    (handleOperator k st, false)
  else if (k =? "Enter") || (k =? "=") then (handleEquals st, true)
  else if k =? "Backspace" then (handleDelete st, false)
  else if k =? "Escape" then (handleClear st, false)
  else (st, false).

(** A session at the keyboard. *)
Definition type_keys (st : state) (ks : list string) : state :=
  fold_left (fun s k => fst (onKeydown k s)) ks st.

End Calculator.

(** ** Predicates the properties are stated with *)

Module Props.

Import JSString Calculator.

(** Every character of [s] is a decimal digit. *)
Fixpoint all_digits (s : string) : bool :=
  match s with
  | EmptyString => true
  | String c s' => is_digit c && all_digits s'
  end.

(** [s] without its last character. *)
Definition drop_last (s : string) : string :=
  substring 0 (String.length s - 1) s.

(** No redundant leading zero: a string that begins with "0" is "0" itself
    or begins with "0.". *)
Definition canonical_zero (s : string) : bool :=
  (s =? "0") || startsWith s "0." || negb (startsWith s "0").

Definition is_sign (ev : event) : bool :=
  match ev with Sign => true | _ => false end.

Definition is_equals (ev : event) : bool :=
  match ev with Equals => true | _ => false end.

(** An operator is pending only together with an operand. *)
Definition operand_pending (st : state) : Prop :=
  operator st <> None -> previousValue st <> None.

(** "Error" is the only text with a capital "E" a handler writes, and the
    handlers that store an operand reset the display to "0": while an "E"
    is displayed nothing is pending. *)
Definition error_cleared (st : state) : Prop :=
  count "E" (currentInput st) <> 0 ->
  previousValue st = None /\ operator st = None.


(** The events the keydown listener can raise: all but percent and sign. *)
Definition from_keyboard (ev : event) : bool :=
  match ev with Percent | Sign => false | _ => true end.

(** The events that edit the input. *)
Definition is_entry (ev : event) : bool :=
  match ev with
  | Digit _ | Dot | Delete | Percent | Sign => true
  | _ => false
  end.

(** Every character of [s] is a decimal digit or the decimal point. *)
Fixpoint decimal_text (s : string) : bool :=
  match s with
  | EmptyString => true
  | String c s' => (JSNumber.is_digit c || Ascii.eqb c ".") && decimal_text s'
  end.

Definition digit_num (d : digit) : Z :=
  match d with
  | D0 => 0 | D1 => 1 | D2 => 2 | D3 => 3 | D4 => 4
  | D5 => 5 | D6 => 6 | D7 => 7 | D8 => 8 | D9 => 9
  end%Z.

(** The integer a sequence of digit keys denotes. *)
Definition number_of_digits (ds : list digit) : Z :=
  fold_left (fun acc d => (10 * acc + digit_num d)%Z) ds 0%Z.

(** What is pending is well formed: the operator is one of the four keys,
    and nothing is pending while [justEvaluated] is set. *)
Definition pending_wellformed (st : state) : Prop :=
  (operator st = None \/ exists o, operator st = Some (op_key o))
  /\ (justEvaluated st = true ->
      previousValue st = None /\ operator st = None).

(** The number of digits entered so far: the initial "0" does not count. *)
Definition digits_measure (s : string) : nat :=
  if s =? "0" then 0 else String.length s.
End Props.

(** ** Facts about the string operations *)

Module StringFacts.

Import JSString Props.

Lemma length_append (a b : string) :
  String.length (a ++ b) = String.length a + String.length b.
Proof. induction a as [|c a IH]; simpl; [reflexivity | now rewrite IH]. Qed.

Lemma count_append (c : ascii) (a b : string) :
  count c (a ++ b) = count c a + count c b.
Proof.
  induction a as [|x a IH]; simpl; [reflexivity|].
  rewrite IH. lia.
Qed.

Lemma append_assoc (a b c : string) : (a ++ b) ++ c = a ++ b ++ c.
Proof. induction a as [|x a IH]; simpl; [reflexivity | now rewrite IH]. Qed.

Lemma length_substring_le (n m : nat) (s : string) :
  String.length (substring n m s) <= m.
Proof.
  revert n m. induction s as [|c s IH]; intros [|n] [|m]; simpl;
    try lia.
  - specialize (IH 0 m). lia.
  - apply (IH n 0).
  - apply (IH n (S m)).
Qed.

Lemma length_substring_le_length (n m : nat) (s : string) :
  String.length (substring n m s) <= String.length s.
Proof.
  revert n m. induction s as [|c s IH]; intros [|n] [|m]; simpl;
    try lia.
  - specialize (IH 0 m). lia.
  - specialize (IH n 0). lia.
  - specialize (IH n (S m)). lia.
Qed.

Lemma count_substring_le (c : ascii) (n m : nat) (s : string) :
  count c (substring n m s) <= count c s.
Proof.
  revert n m. induction s as [|x s IH]; intros [|n] [|m]; simpl;
    try lia.
  - specialize (IH 0 m). lia.
  - specialize (IH n 0). lia.
  - specialize (IH n (S m)). lia.
Qed.

Lemma substring_all (s : string) : substring 0 (String.length s) s = s.
Proof. induction s as [|c s IH]; simpl; [reflexivity | now rewrite IH]. Qed.

Lemma substring_0_cons (m : nat) (c : ascii) (s : string) :
  substring 0 (S m) (String c s) = String c (substring 0 m s).
Proof. reflexivity. Qed.

Lemma substring_0_append (a b : string) :
  substring 0 (String.length a) (a ++ b) = a.
Proof.
  induction a as [|c a IH]; simpl.
  - destruct b; reflexivity.
  - now rewrite IH.
Qed.

Lemma all_digits_substring (n m : nat) (s : string) :
  all_digits s = true -> all_digits (substring n m s) = true.
Proof.
  revert n m. induction s as [|c s IH]; intros [|n] [|m] H; simpl in *;
    try reflexivity; apply andb_prop in H as [Hc Hs].
  - rewrite Hc. simpl. now apply IH.
  - now apply IH.
  - now apply IH.
Qed.

Lemma all_digits_count (c : ascii) (s : string) :
  JSNumber.is_digit c = false -> all_digits s = true -> count c s = 0.
Proof.
  intros Hc. induction s as [|x s IH]; simpl; [reflexivity|].
  intros H. apply andb_prop in H as [Hx Hs].
  destruct (Ascii.eqb_spec x c) as [->|_]; [congruence|].
  now rewrite IH.
Qed.

Lemma count_repeat_other (c d : ascii) (n : nat) :
  d <> c -> count c (repeat_char d n) = 0.
Proof.
  intros Hne. induction n as [|n IH]; simpl; [reflexivity|].
  destruct (Ascii.eqb_spec d c); [contradiction | assumption].
Qed.

(** The three ways the script calls [slice]. *)

Lemma slice_prefix (s : string) (max : Z) :
  (0 <= max)%Z -> (max < Z.of_nat (String.length s))%Z ->
  slice s 0 (Some max) = substring 0 (Z.to_nat max) s.
Proof.
  intros H0 Hlt. unfold slice. change (0 <? 0)%Z with false. cbv iota.
  destruct (Z.ltb_spec max 0); [lia|].
  rewrite Z.min_l by lia. rewrite Z.min_l by lia.
  rewrite Z.sub_0_r, Z.max_l by lia. reflexivity.
Qed.

Lemma slice_drop_last (s : string) :
  slice s 0 (Some (-1)%Z) = drop_last s.
Proof.
  unfold slice, drop_last.
  change (0 <? 0)%Z with false. change (-1 <? 0)%Z with true. cbv iota.
  rewrite Z.min_l by lia. change (Z.to_nat 0) with 0.
  f_equal. lia.
Qed.

Lemma slice_tail (c : ascii) (s : string) :
  slice (String c s) 1 None = s.
Proof.
  unfold slice. change (1 <? 0)%Z with false. cbv iota.
  rewrite Z.min_l by (simpl String.length; lia).
  change (Z.to_nat 1) with 1.
  replace (Z.to_nat _) with (String.length s) by (simpl String.length; lia).
  simpl. destruct s; [reflexivity|]. apply substring_all.
Qed.

Lemma length_substring_0 (m : nat) (s : string) :
  String.length (substring 0 m s) = Nat.min m (String.length s).
Proof.
  revert m. induction s as [|c s IH]; intros [|m]; simpl; try reflexivity.
  now rewrite IH.
Qed.

Lemma length_drop_last (s : string) :
  String.length (drop_last s) = String.length s - 1.
Proof. unfold drop_last. rewrite length_substring_0. lia. Qed.

Lemma drop_last_snoc (t : string) (c : ascii) :
  drop_last (t ++ String c EmptyString) = t.
Proof.
  unfold drop_last. rewrite length_append. simpl String.length.
  replace (String.length t + 1 - 1) with (String.length t) by lia.
  apply substring_0_append.
Qed.

Lemma count_drop_last (c : ascii) (s : string) :
  count c (drop_last s) <= count c s.
Proof. apply count_substring_le. Qed.

Lemma includes_dot_count (s : string) :
  includes s "." = false <-> count "." s = 0.
Proof.
  induction s as [|c s IH]; simpl; [tauto|].
  destruct (Ascii.eqb_spec c ".") as [->|Hne].
  - simpl. destruct s; simpl; split; intros H; discriminate H.
  - replace (if ascii_dec "." c then _ else false) with false.
    + simpl. exact IH.
    + destruct (ascii_dec "." c); [congruence | reflexivity].
Qed.

End StringFacts.

(** ** Facts about the text of a number *)

Module NumberFacts.

Import JSString JSNumber Props StringFacts.

Local Open Scope Z_scope.

Lemma is_digit_digit_char (d : Z) :
  0 <= d < 10 -> is_digit (digit_char d) = true.
Proof.
  intros H.
  assert (d = 0 \/ d = 1 \/ d = 2 \/ d = 3 \/ d = 4 \/
          d = 5 \/ d = 6 \/ d = 7 \/ d = 8 \/ d = 9) as Hd by lia.
  repeat destruct Hd as [-> | Hd]; try subst d; reflexivity.
Qed.

Lemma digit_char_nonzero (d : Z) :
  0 < d < 10 -> digit_char d <> "0"%char.
Proof.
  intros H.
  assert (d = 1 \/ d = 2 \/ d = 3 \/ d = 4 \/
          d = 5 \/ d = 6 \/ d = 7 \/ d = 8 \/ d = 9) as Hd by lia.
  repeat destruct Hd as [-> | Hd]; try subst d; discriminate.
Qed.

Lemma all_digits_digits_aux (fuel : nat) :
  forall n acc, all_digits acc = true ->
                all_digits (digits_aux fuel n acc) = true.
Proof.
  induction fuel as [|f IH]; intros n acc Hacc; simpl; [assumption|].
  assert (all_digits (String (digit_char (n mod 10)) acc) = true) as H.
  { cbn [all_digits]. rewrite is_digit_digit_char, Hacc; [reflexivity|].
    apply Z.mod_pos_bound. lia. }
  destruct (n <? 10); [exact H | now apply IH].
Qed.

Lemma all_digits_digits (n : Z) : all_digits (digits n) = true.
Proof. unfold digits. now apply all_digits_digits_aux. Qed.

Lemma digits_aux_head (fuel : nat) :
  forall n acc, 0 < n < 2 ^ Z.of_nat fuel ->
  exists c r, digits_aux fuel n acc = String c r /\ c <> "0"%char.
Proof.
  induction fuel as [|f IH]; intros n acc Hn.
  - simpl in Hn. lia.
  - simpl digits_aux. destruct (Z.ltb_spec n 10) as [Hlt|Hge].
    + exists (digit_char (n mod 10)), acc. split; [reflexivity|].
      rewrite Z.mod_small by lia. apply digit_char_nonzero. lia.
    + apply IH. rewrite Nat2Z.inj_succ, Z.pow_succ_r in Hn by lia.
      split.
      * apply Z.div_str_pos. lia.
      * apply Z.div_lt_upper_bound; lia.
Qed.

(** The digits of a positive integer begin with a digit other than "0". *)
Lemma digits_head (n : Z) :
  0 < n -> exists c r, digits n = String c r /\ c <> "0"%char.
Proof.
  intros Hn. unfold digits. apply digits_aux_head.
  split; [assumption|].
  rewrite Nat2Z.inj_succ, Z2Nat.id by apply Z.log2_nonneg.
  apply Z.log2_spec. assumption.
Qed.

(** *** The shortest decimal is a positive integer *)

Lemma scaled_pos (num den q : Z) :
  0 <= num -> 0 < den ->
  0 <= fst (scaled num den q) /\ 0 < snd (scaled num den q).
Proof.
  intros Hn Hd. unfold scaled. destruct (Z.leb_spec q 0); cbn [fst snd].
  - split; [|assumption]. apply Z.mul_nonneg_nonneg; [assumption|].
    apply Z.pow_nonneg. lia.
  - split; [assumption|]. apply Z.mul_pos_pos; [assumption|].
    apply Z.pow_pos_nonneg; lia.
Qed.

Lemma pick_pos (force : bool) (x : number) (num den n k s q : Z) :
  0 <= num -> 0 < den ->
  pick force x num den n k = Some (s, q) -> 0 < s.
Proof.
  intros Hn Hd. unfold pick.
  pose proof (scaled_pos num den (n - k) Hn Hd) as [Ha Hb].
  destruct (scaled num den (n - k)) as [a b]. simpl in Ha, Hb.
  assert (0 <= a / b) as Hlo by (apply Z.div_pos; assumption).
  destruct (Z.ltb_spec 0 (a / b)) as [Hpos|Hnpos]; simpl andb;
    destruct (force || same (of_decimal false (a / b) (n - k)) x);
    destruct (force || same (of_decimal false (a / b + 1) (n - k)) x);
    destruct (2 * (a mod b) ?= b); destruct (Z.even (a / b));
    intros [= <- <-]; lia.
Qed.

Lemma shortest_pos (fuel : nat) (x : number) (num den n : Z) :
  0 <= num -> 0 < den ->
  forall k, 0 < fst (shortest fuel x num den n k).
Proof.
  intros Hn Hd. induction fuel as [|f IH]; intros k; simpl.
  - destruct (pick true x num den n k) as [[s q]|] eqn:E; simpl; [|lia].
    eapply pick_pos; eassumption.
  - destruct (pick false x num den n k) as [[s q]|] eqn:E; simpl; [|apply IH].
    eapply pick_pos; eassumption.
Qed.

Lemma strip_zeros_pos (fuel : nat) :
  forall s q, 0 < s -> 0 < fst (strip_zeros fuel s q).
Proof.
  induction fuel as [|f IH]; intros s q Hs; simpl; [assumption|].
  destruct (Z.ltb_spec 0 s); [|lia]. simpl andb.
  destruct (Z.eqb_spec (s mod 10) 0) as [Hm|_]; [|assumption].
  apply IH. apply Z.div_str_pos.
  pose proof (Z.div_mod s 10). lia.
Qed.

Lemma ratio_pos (m : positive) (e : Z) :
  0 <= fst (ratio m e) /\ 0 < snd (ratio m e).
Proof.
  unfold ratio. destruct (Z.leb_spec 0 e); cbn [fst snd].
  - split; [|lia]. apply Z.mul_nonneg_nonneg; [lia|].
    apply Z.pow_nonneg. lia.
  - split; [lia|]. apply Z.pow_pos_nonneg; lia.
Qed.

(** *** Which characters the text of a number contains *)

Lemma count_digits (c : ascii) (n : Z) :
  is_digit c = false -> count c (digits n) = 0%nat.
Proof. intros Hc. apply all_digits_count; [assumption | apply all_digits_digits]. Qed.

Lemma count_sub_digits (c : ascii) (n : Z) (i j : nat) :
  is_digit c = false -> count c (substring i j (digits n)) = 0%nat.
Proof.
  intros Hc. apply all_digits_count; [assumption|].
  apply all_digits_substring, all_digits_digits.
Qed.

Lemma count_zeros (c : ascii) (n : nat) :
  is_digit c = false -> count c (repeat_char "0" n) = 0%nat.
Proof.
  intros Hc. apply count_repeat_other. intros <-. discriminate Hc.
Qed.

Lemma zero_is_digit (c : ascii) :
  is_digit c = false -> Ascii.eqb "0" c = false.
Proof.
  intros Hc. destruct (Ascii.eqb_spec "0" c) as [<-|]; [discriminate Hc | reflexivity].
Qed.

Ltac count_pieces Hc :=
  repeat rewrite count_append;
  repeat rewrite (count_digits _ _ Hc);
  repeat rewrite (count_sub_digits _ _ _ _ Hc);
  repeat rewrite (count_zeros _ _ Hc);
  cbn [count];
  repeat rewrite (zero_is_digit _ Hc);
  repeat match goal with
         | |- context [Ascii.eqb ?a ?b] => destruct (Ascii.eqb a b)
         end;
  lia.

(** A character that is not a digit occurs in the text of a positive
    decimal at most as often as in ".e+-". *)
Lemma count_format_decimal (c : ascii) (s q : Z) :
  is_digit c = false ->
  (count c (format_decimal s q) <= count c ".e+-")%nat.
Proof.
  intros Hc. unfold format_decimal.
  repeat match goal with
         | |- context [if ?b then _ else _] =>
             match b with
             | Ascii.eqb _ _ => fail 1
             | _ => destruct b
             end
         end;
    count_pieces Hc.
Qed.

Lemma count_positive_toString (c : ascii) (m : positive) (e : Z) :
  is_digit c = false ->
  (count c (positive_toString m e) <= count c ".e+-")%nat.
Proof.
  intros Hc. unfold positive_toString.
  destruct (ratio m e) as [num den].
  destruct (shortest _ _ _ _ _ _) as [s q].
  destruct (strip_zeros _ _ _) as [s' q'].
  now apply count_format_decimal.
Qed.

(** The text of a number has at most one decimal point. *)
Lemma count_dot_toString (x : number) :
  (count "." (toString x) <= 1)%nat.
Proof.
  destruct x as [sg|sg| |sg m e]; try destruct sg; cbn [toString];
    try (cbn; lia);
    rewrite count_append;
    pose proof (count_positive_toString "." m e eq_refl) as H;
    cbn [count] in *; cbn in H |- *; lia.
Qed.

(** The text of a number has no capital "E". *)
Lemma count_E_toString (x : number) :
  count "E" (toString x) = 0%nat.
Proof.
  destruct x as [sg|sg| |sg m e]; try destruct sg; cbn [toString];
    try reflexivity;
    rewrite count_append;
    pose proof (count_positive_toString "E" m e eq_refl) as H;
    cbn [count] in *; cbn in H |- *; lia.
Qed.

(** *** How the text of a number begins *)

Lemma canonical_zero_head (c : ascii) (r : string) :
  c <> "0"%char -> canonical_zero (String c r) = true.
Proof.
  intros Hc. unfold canonical_zero, startsWith.
  replace (String.prefix "0" (String c r)) with false.
  - cbn [negb]. now rewrite !orb_true_r.
  - cbn [String.prefix]. destruct (ascii_dec "0" c); [congruence | reflexivity].
Qed.

Lemma canonical_zero_point (r : string) :
  canonical_zero (String "0" (String "." r)) = true.
Proof.
  unfold canonical_zero, startsWith. cbn [String.prefix].
  destruct (ascii_dec "0" "0"); [|congruence].
  destruct (ascii_dec "." "."); [|congruence].
  replace (String.prefix EmptyString r) with true by (destruct r; reflexivity).
  now rewrite orb_true_r.
Qed.

Lemma canonical_zero_format_decimal (s q : Z) :
  0 < s -> canonical_zero (format_decimal s q) = true.
Proof.
  intros Hs. unfold format_decimal.
  destruct (digits_head s Hs) as (c & r & -> & Hc).
  set (k := Z.of_nat (String.length (String c r))).
  destruct ((k <=? q + k) && _); [now apply canonical_zero_head|].
  destruct ((0 <? q + k) && _) eqn:E.
  - apply andb_prop in E as [E _]. apply Z.ltb_lt in E.
    destruct (Z.to_nat (q + k)) as [|n'] eqn:En; [lia|].
    rewrite substring_0_cons. now apply canonical_zero_head.
  - destruct ((-6 <? q + k) && _); [apply canonical_zero_point|].
    destruct (k =? 1); now apply canonical_zero_head.
Qed.

Lemma canonical_zero_positive_toString (m : positive) (e : Z) :
  canonical_zero (positive_toString m e) = true.
Proof.
  unfold positive_toString.
  pose proof (ratio_pos m e) as [Hn Hd].
  destruct (ratio m e) as [num den]. cbn [fst snd] in Hn, Hd.
  pose proof (shortest_pos 16 (S754_finite false m e) num den
                (decimal_exponent num den) Hn Hd 1) as Hs.
  destruct (shortest _ _ _ _ _ _) as [s q]. cbn [fst] in Hs.
  pose proof (strip_zeros_pos (S (Z.to_nat (Z.log2 s))) s q Hs) as Hs'.
  destruct (strip_zeros _ _ _) as [s' q']. cbn [fst] in Hs'.
  now apply canonical_zero_format_decimal.
Qed.

(** The text of a number has no redundant leading zero. *)
Lemma canonical_zero_toString (x : number) :
  canonical_zero (toString x) = true.
Proof.
  destruct x as [sg|sg| |sg m e]; try destruct sg; try reflexivity;
    cbn [toString append].
  apply canonical_zero_positive_toString.
Qed.

End NumberFacts.

(** ** Facts about the helpers of the calculator *)

Module HelperFacts.

Import JSString Calculator Props StringFacts.

Lemma count_slice_le (c : ascii) (s : string) (a : Z) (b : option Z) :
  count c (slice s a b) <= count c s.
Proof. unfold slice. apply count_substring_le. Qed.

Lemma length_slice_le (s : string) (a : Z) (b : option Z) :
  String.length (slice s a b) <= String.length s.
Proof. unfold slice. apply length_substring_le_length. Qed.

Lemma length_clampLength (s : string) :
  String.length (clampLength s max_default) <= 14.
Proof.
  unfold clampLength, max_default.
  destruct (Z.leb_spec (Z.of_nat (String.length s)) 14) as [H|H]; [lia|].
  rewrite slice_prefix by lia. apply length_substring_le.
Qed.

Lemma count_clampLength_le (c : ascii) (s : string) (max : Z) :
  count c (clampLength s max) <= count c s.
Proof.
  unfold clampLength. destruct (_ <=? _)%Z; [lia | apply count_slice_le].
Qed.

Lemma length_strip_leading_zeros (s : string) :
  String.length (strip_leading_zeros s) <= String.length s.
Proof.
  induction s as [|c s IH]; [simpl; lia|].
  cbn [strip_leading_zeros].
  destruct (Ascii.eqb_spec c "0") as [->|Hne].
  - destruct s as [|d s]; [lia|].
    destruct (is_digit d); [|lia].
    cbn [String.length] in *. lia.
  - destruct c as [[] [] [] [] [] [] [] []]; try lia; congruence.
Qed.

Lemma count_strip_leading_zeros (x : ascii) (s : string) :
  count x (strip_leading_zeros s) <= count x s.
Proof.
  induction s as [|c s IH]; [simpl; lia|].
  cbn [strip_leading_zeros].
  destruct (Ascii.eqb_spec c "0") as [->|Hne].
  - destruct s as [|d s]; [lia|].
    destruct (is_digit d); [|lia].
    change (count x (String "0" (String d s)))
      with ((if Ascii.eqb "0" x then 1 else 0) + count x (String d s)).
    lia.
  - destruct c as [[] [] [] [] [] [] [] []]; try lia; congruence.
Qed.

Lemma length_normalize (s : string) :
  String.length (normalizeNumberString s) <= String.length s.
Proof.
  unfold normalizeNumberString.
  destruct (_ || _); [lia | apply length_strip_leading_zeros].
Qed.

Lemma count_normalize_le (c : ascii) (s : string) :
  count c (normalizeNumberString s) <= count c s.
Proof.
  unfold normalizeNumberString.
  destruct (_ || _); [lia | apply count_strip_leading_zeros].
Qed.

(** The shapes a string without redundant leading zero can have. *)
Lemma canonical_zero_cases (s : string) :
  canonical_zero s = true <->
  s = EmptyString \/ s = "0" \/ (exists r, s = String "0" (String "." r)) \/
  (exists c r, s = String c r /\ c <> "0"%char).
Proof.
  split.
  - intros H. destruct s as [|c r]; [now left|].
    destruct (Ascii.eqb_spec c "0") as [->|Hne].
    + destruct r as [|d r]; [right; now left|].
      destruct (Ascii.eqb_spec d ".") as [->|Hd].
      * right; right; left. now exists r.
      * exfalso. unfold canonical_zero, startsWith in H.
        cbn [String.prefix String.eqb] in H.
        destruct (ascii_dec "0" "0") as [_|F]; [|congruence].
        destruct (ascii_dec "." d) as [E|_]; [congruence|].
        replace (String.prefix EmptyString (String d r)) with true in H by reflexivity.
        rewrite Ascii.eqb_refl in H. cbn in H. discriminate H.
    + right; right; right. now exists c, r.
  - intros [->|[->|[(r & ->)|(c & r & -> & Hc)]]]; try reflexivity.
    + apply NumberFacts.canonical_zero_point.
    + now apply NumberFacts.canonical_zero_head.
Qed.

(** Normalizing changes nothing when there is no redundant zero. *)
Lemma normalize_canonical (s : string) :
  canonical_zero s = true -> normalizeNumberString s = s.
Proof.
  intros H. unfold normalizeNumberString.
  destruct (_ || _); [reflexivity|].
  apply canonical_zero_cases in H
    as [->|[->|[(r & ->)|(c & r & -> & Hc)]]]; try reflexivity.
  cbn [strip_leading_zeros].
  destruct c as [[] [] [] [] [] [] [] []]; try reflexivity; congruence.
Qed.

Lemma canonical_zero_digit_key (d : digit) :
  canonical_zero (digit_key d) = true.
Proof. destruct d; reflexivity. Qed.

Lemma canonical_zero_append (a x : string) :
  canonical_zero a = true -> a <> "0" -> canonical_zero x = true ->
  canonical_zero (a ++ x) = true.
Proof.
  intros Ha Hne Hx.
  apply canonical_zero_cases in Ha
    as [->|[->|[(r & ->)|(c & r & -> & Hc)]]]; cbn [append].
  - assumption.
  - congruence.
  - apply NumberFacts.canonical_zero_point.
  - now apply NumberFacts.canonical_zero_head.
Qed.

Lemma canonical_zero_clampLength (s : string) :
  canonical_zero s = true -> canonical_zero (clampLength s max_default) = true.
Proof.
  intros H. unfold clampLength, max_default.
  destruct (Z.leb_spec (Z.of_nat (String.length s)) 14) as [Hle|Hgt];
    [assumption|].
  rewrite slice_prefix by lia. change (Z.to_nat 14) with 14.
  apply canonical_zero_cases in H
    as [->|[->|[(r & ->)|(c & r & -> & Hc)]]]; try reflexivity.
  - rewrite !substring_0_cons. apply NumberFacts.canonical_zero_point.
  - rewrite substring_0_cons. now apply NumberFacts.canonical_zero_head.
Qed.

Lemma drop_last_cons (c d : ascii) (r : string) :
  drop_last (String c (String d r)) = String c (drop_last (String d r)).
Proof.
  unfold drop_last. cbn [String.length].
  rewrite !Nat.sub_succ, !Nat.sub_0_r. reflexivity.
Qed.

Lemma canonical_zero_drop_last (s : string) :
  canonical_zero s = true -> canonical_zero (drop_last s) = true.
Proof.
  intros H. apply canonical_zero_cases in H
    as [->|[->|[(r & ->)|(c & r & -> & Hc)]]]; try reflexivity.
  - rewrite drop_last_cons. destruct r as [|d r]; [reflexivity|].
    rewrite drop_last_cons. apply NumberFacts.canonical_zero_point.
  - destruct r as [|d r]; [reflexivity|].
    rewrite drop_last_cons. now apply NumberFacts.canonical_zero_head.
Qed.

End HelperFacts.

(** ** Invariants of the event loop *)

Module Invariants.

Import JSString Calculator Props StringFacts HelperFacts.

(** A property that holds initially and that every allowed event preserves
    holds after every run of allowed events. *)
Lemma run_invariant (allowed : event -> bool) (P : state -> Prop) :
  (forall st ev, allowed ev = true -> P st -> P (step st ev)) ->
  forall evs st, forallb allowed evs = true -> P st -> P (run st evs).
Proof.
  intros Hstep. induction evs as [|ev evs IH]; intros st Hall HP.
  - exact HP.
  - cbn [forallb] in Hall. apply andb_prop in Hall as [Hev Hevs].
    cbn [run fold_left]. apply IH; [assumption|]. now apply Hstep.
Qed.

Lemma run_invariant_all (P : state -> Prop) :
  (forall st ev, P st -> P (step st ev)) ->
  forall evs st, P st -> P (run st evs).
Proof.
  intros Hstep evs st HP.
  apply (run_invariant (fun _ => true) P); auto.
  clear. induction evs; [reflexivity | assumption].
Qed.

Lemma run_app (st : state) (evs1 evs2 : list event) :
  run st (evs1 ++ evs2) = run (run st evs1) evs2.
Proof. unfold run. apply fold_left_app. Qed.

Ltac open_state st :=
  destruct st as [ci pv op je];
  cbn [currentInput previousValue operator justEvaluated] in *.

Ltac fields :=
  cbn [currentInput previousValue operator justEvaluated] in *.

Lemma length_digit_key (d : digit) : String.length (digit_key d) = 1.
Proof. destruct d; reflexivity. Qed.

Lemma count_digit_key (c : ascii) (d : digit) :
  JSNumber.is_digit c = false -> count c (digit_key d) = 0.
Proof.
  intros Hc. apply all_digits_count; [assumption|]. destruct d; reflexivity.
Qed.

(** *** An operator is pending only with an operand *)

Lemma step_operand_pending (st : state) (ev : event) :
  operand_pending st -> operand_pending (step st ev).
Proof.
  unfold operand_pending. open_state st. intros H.
  destruct ev; cbn [step].
  - unfold handleDigit; fields. destruct je; [|destruct (ci =? "0")]; exact H.
  - unfold handleDot; fields.
    destruct je; [|destruct (negb (includes ci "."))]; exact H.
  - unfold handleOperator; fields.
    destruct pv as [p|]; [|discriminate].
    destruct op as [o'|]; [|discriminate].
    destruct (_ && _); [|discriminate].
    destruct (compute _ _ _); fields; [discriminate | congruence].
  - unfold handleEquals; fields.
    destruct pv as [p|]; [|exact H].
    destruct op as [o'|]; [|exact H].
    destruct (truthy _); fields; [congruence | exact H].
  - intros F. exfalso. now apply F.
  - unfold handleDelete; fields. destruct je; exact H.
  - exact H.
  - unfold handleSign; fields. destruct (ci =? "0"); exact H.
Qed.

(** *** The length cap *)

Lemma step_length (st : state) (ev : event) :
  negb (is_equals ev || is_sign ev) = true ->
  String.length (currentInput st) <= 14 ->
  String.length (currentInput (step st ev)) <= 14.
Proof.
  open_state st. intros Hev H.
  destruct ev; try discriminate Hev; clear Hev; cbn [step].
  - unfold handleDigit; fields.
    destruct je; fields; [rewrite length_digit_key; lia|].
    eapply Nat.le_trans; [apply length_normalize|].
    destruct (ci =? "0"); [rewrite length_digit_key; lia|].
    apply length_clampLength.
  - unfold handleDot; fields.
    destruct je; fields; [cbn; lia|].
    destruct (negb (includes ci ".")); fields; [apply length_clampLength | exact H].
  - unfold handleOperator; fields.
    destruct pv as [p|]; [|cbn; lia].
    destruct op as [o'|]; [|cbn; lia].
    destruct (_ && _); [|cbn; lia].
    destruct (compute _ _ _); fields; cbn; lia.
  - cbn. lia.
  - unfold handleDelete; fields.
    destruct je; fields; [cbn; lia|].
    eapply Nat.le_trans; [apply length_normalize|].
    destruct (_ <=? 1)%nat; [cbn; lia|].
    rewrite !slice_drop_last.
    destruct (endsWith _ _).
    + destruct (_ =? EmptyString); [cbn; lia|].
      rewrite !length_drop_last. lia.
    + rewrite length_drop_last. lia.
  - unfold handlePercent; fields. apply length_clampLength.
Qed.

(** *** At most one decimal point *)

Lemma step_one_dot (st : state) (ev : event) :
  count "." (currentInput st) <= 1 ->
  count "." (currentInput (step st ev)) <= 1.
Proof.
  open_state st. intros H.
  destruct ev; cbn [step].
  - unfold handleDigit; fields.
    destruct je; fields; [rewrite count_digit_key by reflexivity; lia|].
    eapply Nat.le_trans; [apply count_normalize_le|].
    destruct (ci =? "0"); [rewrite count_digit_key by reflexivity; lia|].
    eapply Nat.le_trans; [apply count_clampLength_le|].
    rewrite count_append, count_digit_key by reflexivity. lia.
  - unfold handleDot; fields.
    destruct je; fields; [cbn; lia|].
    destruct (includes ci ".") eqn:E; cbn [negb]; fields; [exact H|].
    apply includes_dot_count in E.
    eapply Nat.le_trans; [apply count_clampLength_le|].
    rewrite count_append, E. cbn. lia.
  - unfold handleOperator; fields.
    destruct pv as [p|]; [|cbn; lia].
    destruct op as [o'|]; [|cbn; lia].
    destruct (_ && _); [|cbn; lia].
    destruct (compute _ _ _); fields; cbn; lia.
  - unfold handleEquals; fields.
    destruct pv as [p|]; [|exact H].
    destruct op as [o'|]; [|exact H].
    destruct (truthy _); fields; [|exact H].
    destruct (compute _ _ _); [apply NumberFacts.count_dot_toString | cbn; lia].
  - cbn. lia.
  - unfold handleDelete; fields.
    destruct je; fields; [cbn; lia|].
    eapply Nat.le_trans; [apply count_normalize_le|].
    destruct (_ <=? 1)%nat; [cbn; lia|].
    rewrite !slice_drop_last.
    pose proof (count_drop_last "." ci).
    pose proof (count_drop_last "." (drop_last ci)).
    destruct (endsWith _ _); [|lia].
    destruct (_ =? EmptyString); [cbn; lia | lia].
  - unfold handlePercent; fields.
    eapply Nat.le_trans; [apply count_clampLength_le|].
    apply NumberFacts.count_dot_toString.
  - unfold handleSign; fields.
    destruct (ci =? "0"); fields; [exact H|].
    destruct (startsWith ci "-").
    + eapply Nat.le_trans; [apply count_slice_le | exact H].
    + rewrite count_append. cbn. lia.
Qed.

(** *** No redundant leading zero, as long as the sign is not toggled *)

Lemma step_canonical_zero (st : state) (ev : event) :
  negb (is_sign ev) = true ->
  canonical_zero (currentInput st) = true ->
  canonical_zero (currentInput (step st ev)) = true.
Proof.
  open_state st. intros Hev H.
  destruct ev; try discriminate Hev; clear Hev; cbn [step].
  - unfold handleDigit; fields.
    destruct je; fields; [apply canonical_zero_digit_key|].
    destruct (String.eqb_spec ci "0") as [->|Hne].
    + rewrite normalize_canonical; apply canonical_zero_digit_key.
    + assert (canonical_zero (clampLength (ci ++ digit_key d) max_default) = true)
        as Hc.
      { apply canonical_zero_clampLength, canonical_zero_append;
          [assumption | assumption | apply canonical_zero_digit_key]. }
      now rewrite normalize_canonical.
  - unfold handleDot; fields.
    destruct je; fields; [reflexivity|].
    destruct (negb (includes ci ".")); fields; [|exact H].
    apply canonical_zero_clampLength.
    destruct (String.eqb_spec ci "0") as [->|Hne]; [reflexivity|].
    now apply canonical_zero_append.
  - unfold handleOperator; fields.
    destruct pv as [p|]; [|reflexivity].
    destruct op as [o'|]; [|reflexivity].
    destruct (_ && _); [|reflexivity].
    destruct (compute _ _ _); fields; reflexivity.
  - unfold handleEquals; fields.
    destruct pv as [p|]; [|exact H].
    destruct op as [o'|]; [|exact H].
    destruct (truthy _); fields; [|exact H].
    destruct (compute _ _ _);
      [apply NumberFacts.canonical_zero_toString | reflexivity].
  - reflexivity.
  - unfold handleDelete; fields.
    destruct je; fields; [reflexivity|].
    match goal with
    | |- canonical_zero (normalizeNumberString ?c) = true =>
        assert (canonical_zero c = true) as Hc
    end.
    { destruct (_ <=? 1)%nat; [reflexivity|].
      rewrite !slice_drop_last.
      destruct (endsWith _ _); [|now apply canonical_zero_drop_last].
      destruct (_ =? EmptyString); [reflexivity|].
      now apply canonical_zero_drop_last, canonical_zero_drop_last. }
    now rewrite normalize_canonical.
  - unfold handlePercent; fields.
    apply canonical_zero_clampLength, NumberFacts.canonical_zero_toString.
Qed.

(** *** A capital "E" on the display means nothing is pending *)

Lemma step_error_cleared (st : state) (ev : event) :
  error_cleared st -> error_cleared (step st ev).
Proof.
  unfold error_cleared. open_state st. intros H.
  assert (forall s, count "E" s <> 0 -> count "E" s <= count "E" ci ->
                    pv = None /\ op = None) as Hle.
  { intros s Hs Hci. apply H. lia. }
  destruct ev; cbn [step].
  - unfold handleDigit; fields.
    destruct je; fields.
    + rewrite count_digit_key by reflexivity. congruence.
    + intros Hn. apply (Hle _ Hn). clear Hn.
      eapply Nat.le_trans; [apply count_normalize_le|].
      destruct (ci =? "0"); [rewrite count_digit_key by reflexivity; lia|].
      eapply Nat.le_trans; [apply count_clampLength_le|].
      rewrite count_append, count_digit_key by reflexivity. lia.
  - unfold handleDot; fields.
    destruct je; fields; [cbn; congruence|].
    destruct (negb (includes ci ".")); fields; [|exact H].
    intros Hn. apply (Hle _ Hn). clear Hn.
    eapply Nat.le_trans; [apply count_clampLength_le|].
    rewrite count_append. cbn. lia.
  - unfold handleOperator; fields.
    destruct pv as [p|]; [|cbn; congruence].
    destruct op as [o'|]; [|cbn; congruence].
    destruct (_ && _); [|cbn; congruence].
    destruct (compute _ _ _); fields; [cbn; congruence | tauto].
  - unfold handleEquals; fields.
    destruct pv as [p|]; [|exact H].
    destruct op as [o'|]; [|exact H].
    destruct (truthy _); fields; [tauto | exact H].
  - cbn. tauto.
  - unfold handleDelete; fields.
    destruct je; fields; [cbn; congruence|].
    intros Hn. apply (Hle _ Hn). clear Hn.
    eapply Nat.le_trans; [apply count_normalize_le|].
    destruct (_ <=? 1)%nat; [cbn; lia|].
    rewrite !slice_drop_last.
    pose proof (count_drop_last "E" ci).
    pose proof (count_drop_last "E" (drop_last ci)).
    destruct (endsWith _ _); [|lia].
    destruct (_ =? EmptyString); [cbn; lia | lia].
  - unfold handlePercent; fields.
    intros Hn. exfalso. apply Hn.
    pose proof (count_clampLength_le "E"
                  (toString (div (inputToNumber
                     {| currentInput := ci; previousValue := pv;
                        operator := op; justEvaluated := je |}) hundred))
                  max_default) as Hc.
    rewrite NumberFacts.count_E_toString in Hc. lia.
  - unfold handleSign; fields.
    destruct (ci =? "0"); fields; [exact H|].
    intros Hn. apply (Hle _ Hn). clear Hn.
    destruct (startsWith ci "-").
    + apply count_slice_le.
    + rewrite count_append. cbn. lia.
Qed.

(** *** Deleting shortens the input until it is "0" *)

Lemma endsWith_snoc (u : string) (c : ascii) :
  endsWith (u ++ String c EmptyString) (String c EmptyString) = true.
Proof.
  induction u as [|x u IH]; cbn [append endsWith].
  - now rewrite String.eqb_refl.
  - rewrite IH. apply orb_true_r.
Qed.

Lemma handleDelete_short (st : state) :
  justEvaluated st = false -> String.length (currentInput st) <= 1 ->
  currentInput (handleDelete st) = "0".
Proof.
  open_state st. intros -> Hlen. unfold handleDelete; fields.
  destruct (Nat.leb_spec (String.length ci) 1); [reflexivity | lia].
Qed.

Lemma handleDelete_shrinks (st : state) :
  justEvaluated st = false -> 2 <= String.length (currentInput st) ->
  String.length (currentInput (handleDelete st)) < String.length (currentInput st)
  /\ justEvaluated (handleDelete st) = false.
Proof.
  open_state st. intros -> Hlen. unfold handleDelete; fields.
  split; [|reflexivity].
  eapply Nat.le_lt_trans; [apply length_normalize|].
  destruct (Nat.leb_spec (String.length ci) 1); [lia|].
  rewrite !slice_drop_last.
  destruct (endsWith _ _).
  - destruct (_ =? EmptyString); [cbn; lia|].
    rewrite !length_drop_last. lia.
  - rewrite length_drop_last. lia.
Qed.

Lemma delete_reaches_zero (n : nat) :
  forall st, String.length (currentInput st) <= n ->
             justEvaluated st = false ->
             exists k, currentInput (Nat.iter k handleDelete st) = "0".
Proof.
  induction n as [|n IH]; intros st Hlen Hje.
  - exists 1. apply handleDelete_short; [assumption | lia].
  - destruct (Nat.leb_spec (String.length (currentInput st)) 1) as [Hs|Hl].
    + exists 1. now apply handleDelete_short.
    + destruct (handleDelete_shrinks st Hje) as [Hlt Hje']; [lia|].
      destruct (IH (handleDelete st)) as [k Hk]; [lia | assumption|].
      exists (S k). now rewrite Nat.iter_succ_r.
Qed.

End Invariants.

(** ** The properties of the calculator *)

Import JSString Calculator Props StringFacts HelperFacts Invariants.

(** C1: from the initial state the keys 2 + 3 * 4 = leave "20" on the
    display.  The operators chain from left to right without precedence:
    when [*] is pressed the pending 2 + 3 is folded into [previousValue],
    which is then 5 with [*] pending. *)
Theorem chained_operators_fold_left_to_right :
  currentInput (run initial [Digit D2; Operator Plus; Digit D3;
                             Operator Times; Digit D4; Equals]) = "20"
  /\ previousValue (run initial [Digit D2; Operator Plus; Digit D3;
                                 Operator Times]) = Some (ofString "5")
  /\ operator (run initial [Digit D2; Operator Plus; Digit D3;
                            Operator Times]) = Some "*".
Proof. vm_compute. repeat split. Qed.

(** C2, as amended: after any sequence of digit, dot, operator, clear,
    delete and percent events the input is at most 14 characters long. *)
Theorem input_length_capped_without_equals_and_sign (evs : list event) :
  forallb (fun ev => negb (is_equals ev || is_sign ev)) evs = true ->
  String.length (currentInput (run initial evs)) <= 14.
Proof.
  intros Hevs.
  apply (run_invariant (fun ev => negb (is_equals ev || is_sign ev))
           (fun st => String.length (currentInput st) <= 14)).
  - apply step_length.
  - exact Hevs.
  - cbn. lia.
Qed.

Lemma input_length_capped_witness :
  String.length
    (currentInput
       (run initial [Digit D1; Digit D2; Digit D3; Digit D4; Digit D5;
                     Digit D6; Digit D7; Digit D8; Digit D9; Digit D0;
                     Digit D1; Digit D2; Digit D3; Digit D4; Digit D5;
                     Dot; Percent; Delete; Operator Plus; Digit D7])) <= 14.
Proof.
  apply input_length_capped_without_equals_and_sign. reflexivity.
Defined.

(** C2 as stated fails: the sign key puts a minus sign before fourteen
    digits, and [equals] writes the result without clamping it. *)
Lemma input_length_cap_exceeded :
  ~ String.length
      (currentInput
         (run initial [Digit D1; Digit D2; Digit D3; Digit D4; Digit D5;
                       Digit D6; Digit D7; Digit D8; Digit D9; Digit D0;
                       Digit D1; Digit D2; Digit D3; Digit D4; Sign])) <= 14
  /\ ~ String.length
         (currentInput
            (run initial [Digit D1; Digit D0; Digit D0; Digit D0; Digit D0;
                          Digit D0; Operator Divide; Digit D3; Equals])) <= 14.
Proof. split; vm_compute; lia. Qed.

(** C3: from the initial state the keys 5 / 0 = leave "Error" on the bottom
    line with [previousValue] and [operator] cleared.  [compute] signals
    the division by zero with [null]; [handleEquals] turns it into the new
    state. *)
Theorem division_by_zero_displays_error :
  let st := run initial [Digit D5; Operator Divide; Digit D0; Equals] in
  currentInput st = "Error" /\ snd (render st) = "Error"
  /\ previousValue st = None /\ operator st = None
  /\ compute (ofString "5") "/" (ofString "0") = None.
Proof. vm_compute. repeat split. Qed.

(** C4, as amended: in a reachable state that displays "Error" nothing is
    pending; [clear] returns to the initial state, [equals] changes
    nothing, and every other event replaces "Error" by another text. *)
Theorem error_state_events (evs : list event) :
  let st := run initial evs in
  currentInput st = "Error" ->
  previousValue st = None /\ operator st = None
  /\ step st Clear = initial
  /\ step st Equals = st
  /\ forall ev, ev <> Clear -> ev <> Equals ->
                currentInput (step st ev) <> "Error".
Proof.
  intros st Herr.
  assert (error_cleared st) as Hinv.
  { apply run_invariant_all; [apply step_error_cleared|].
    intros F. exfalso. now apply F. }
  unfold error_cleared in Hinv. rewrite Herr in Hinv.
  destruct Hinv as [Hpv Hop]; [discriminate|].
  destruct st as [ci pv op je]; fields. subst ci pv op.
  repeat split.
  intros ev Hclear Hequals.
  destruct ev as [d| |o| | | | |]; try congruence;
    destruct je; try destruct d; try destruct o; vm_compute; discriminate.
Qed.

Lemma error_state_events_witness :
  let st := run initial [Digit D5; Operator Divide; Digit D0; Equals] in
  previousValue st = None /\ operator st = None
  /\ step st Clear = initial
  /\ step st Equals = st
  /\ forall ev, ev <> Clear -> ev <> Equals ->
                currentInput (step st ev) <> "Error".
Proof.
  apply (error_state_events [Digit D5; Operator Divide; Digit D0; Equals]).
  reflexivity.
Defined.

(** C4 as stated fails: a digit typed in the Error state replaces
    "Error". *)
Lemma error_state_left_by_digit :
  let st := run initial [Digit D5; Operator Divide; Digit D0; Equals] in
  currentInput st = "Error"
  /\ currentInput (step st (Digit D7)) <> "Error".
Proof. vm_compute. split; [reflexivity | discriminate]. Qed.

(** C5: in every reachable state a pending operator comes with a pending
    operand: when [operator] is not [null], [previousValue] is not
    either. *)
Theorem operator_pending_implies_operand (evs : list event) :
  operator (run initial evs) <> None ->
  previousValue (run initial evs) <> None.
Proof.
  apply (run_invariant_all operand_pending).
  - apply step_operand_pending.
  - intros F. exfalso. now apply F.
Qed.

Lemma operator_pending_implies_operand_witness :
  previousValue (run initial [Digit D5; Operator Plus]) <> None.
Proof.
  apply (operator_pending_implies_operand [Digit D5; Operator Plus]).
  vm_compute. discriminate.
Defined.

(** C6, as amended: in every reachable state the input has at most one
    decimal point; and as long as the sign key is not used it has no
    redundant leading zero: an input that begins with "0" is "0" or begins
    with "0.". *)
Theorem one_point_and_canonical_zero (evs : list event) :
  count "." (currentInput (run initial evs)) <= 1
  /\ (forallb (fun ev => negb (is_sign ev)) evs = true ->
      canonical_zero (currentInput (run initial evs)) = true).
Proof.
  split.
  - apply (run_invariant_all (fun st => count "." (currentInput st) <= 1)).
    + apply step_one_dot.
    + cbn. lia.
  - intros Hevs.
    apply (run_invariant (fun ev => negb (is_sign ev))
             (fun st => canonical_zero (currentInput st) = true)).
    + apply step_canonical_zero.
    + exact Hevs.
    + reflexivity.
Qed.

Lemma one_point_and_canonical_zero_witness :
  let evs := [Digit D0; Digit D0; Dot; Dot; Digit D0; Digit D5; Delete;
              Operator Minus; Digit D7; Equals; Percent] in
  count "." (currentInput (run initial evs)) <= 1
  /\ canonical_zero (currentInput (run initial evs)) = true.
Proof.
  intros evs. destruct (one_point_and_canonical_zero evs) as [Hdot Hzero].
  split; [exact Hdot | apply Hzero; reflexivity].
Defined.

(** C6 as stated fails: with the sign key a redundant zero can be
    entered. *)
Lemma redundant_zero_after_sign :
  let st := run initial [Digit D5; Sign; Delete; Digit D0; Digit D5; Sign] in
  currentInput st = "05" /\ canonical_zero (currentInput st) = false.
Proof. vm_compute. split; reflexivity. Qed.

(** C7, as amended: when [justEvaluated] is false, [delete] removes the last
    character of the input and then normalizes the leading zeros of what
    is left.  An input of at most one character becomes "0"; a decimal
    point left at the end is removed too, with "0" for an empty rest;
    normalizing changes nothing unless there is a redundant leading zero.
    In particular "12." becomes "12", and repeated deleting reaches "0". *)
Theorem delete_removes_last_character (st : state) :
  justEvaluated st = false ->
  (String.length (currentInput st) <= 1 ->
   currentInput (handleDelete st) = "0")
  /\ (forall t c, currentInput st = t ++ String c EmptyString -> t <> EmptyString ->
                  endsWith t "." = false ->
                  currentInput (handleDelete st) = normalizeNumberString t)
  /\ (forall u c, currentInput st = u ++ String "." (String c EmptyString) ->
                  currentInput (handleDelete st) =
                  normalizeNumberString (if u =? EmptyString then "0" else u))
  /\ (forall t, canonical_zero t = true -> normalizeNumberString t = t)
  /\ (forall pv op,
        currentInput (handleDelete
                        {| currentInput := "12."; previousValue := pv;
                           operator := op; justEvaluated := false |}) = "12")
  /\ exists k, currentInput (Nat.iter k handleDelete st) = "0".
Proof.
  intros Hje. repeat split.
  - now apply handleDelete_short.
  - intros t c Hs Ht Hend. destruct st as [ci pv op je]; fields. subst ci je.
    unfold handleDelete; fields.
    destruct (Nat.leb_spec (String.length (t ++ String c EmptyString)) 1) as [Hl|_].
    + rewrite length_append in Hl. destruct t; [congruence | cbn in Hl; lia].
    + rewrite slice_drop_last, drop_last_snoc, Hend. reflexivity.
  - intros u c Hs. destruct st as [ci pv op je]; fields. subst ci je.
    unfold handleDelete; fields.
    replace (u ++ String "." (String c EmptyString))
      with ((u ++ String "." EmptyString) ++ String c EmptyString)
      by (now rewrite append_assoc).
    destruct (Nat.leb_spec
                (String.length ((u ++ String "." EmptyString) ++ String c EmptyString)) 1)
      as [Hl|_].
    + rewrite !length_append in Hl. cbn in Hl. lia.
    + rewrite slice_drop_last, drop_last_snoc, endsWith_snoc.
      rewrite slice_drop_last, drop_last_snoc. reflexivity.
  - apply normalize_canonical.
  - apply (delete_reaches_zero (String.length (currentInput st)));
      [lia | assumption].
Qed.

Lemma delete_removes_last_character_witness :
  let st := run initial [Digit D1; Digit D2; Dot; Digit D5] in
  currentInput (handleDelete st) = normalizeNumberString "12"
  /\ exists k, currentInput (Nat.iter k handleDelete st) = "0".
Proof.
  intros st.
  destruct (delete_removes_last_character st eq_refl)
    as (_ & _ & Hpoint & _ & _ & Hzero).
  split; [|exact Hzero].
  apply (Hpoint "12" "5"%char). reflexivity.
Defined.

(** C7 as stated fails: after "005" has been entered with the help of the
    sign key, [delete] leaves "0" and not "00". *)
Lemma delete_also_normalizes :
  let st := run initial [Digit D5; Sign; Delete; Digit D0; Digit D0;
                         Digit D5; Sign] in
  justEvaluated st = false /\ currentInput st = "005"
  /\ drop_last (currentInput st) = "00"
  /\ currentInput (handleDelete st) <> drop_last (currentInput st).
Proof. vm_compute. repeat split. discriminate. Qed.

(** C8: from the initial state the keys . 1 + . 2 = leave "0.3" on the
    display.  The binary64 sum of 0.1 and 0.2 is 0.30000000000000004;
    [toFixed(10)] writes it as "0.3000000000", which reads back as 0.3. *)
Theorem rounding_hides_floating_point_noise :
  currentInput (run initial [Dot; Digit D1; Operator Plus; Dot; Digit D2;
                             Equals]) = "0.3"
  /\ toString (add (ofString "0.1") (ofString "0.2")) = "0.30000000000000004"
  /\ toFixed (add (ofString "0.1") (ofString "0.2")) 10 = "0.3000000000"
  /\ toString (round10 (add (ofString "0.1") (ofString "0.2"))) = "0.3".
Proof. vm_compute. repeat split. Qed.

(** C9, as amended: in a state with an operand and an operator pending,
    [justEvaluated] false and "0" as input, a further operator key applies
    the pending operator with 0 as second operand: [previousValue] becomes
    the result rounded to 10 decimals, and a pending division shows
    "Error" with nothing pending.  The keys 5 * + make [previousValue] 0
    and the keys 5 / / show "Error". *)
Theorem repeated_operator_applies_pending
    (st : state) (pv : number) (o op2 : string) :
  previousValue st = Some pv -> operator st = Some o ->
  truthy (operator st) = true ->
  justEvaluated st = false -> currentInput st = "0" ->
  handleOperator op2 st =
    match compute pv o (S754_zero false) with
    | Some result =>
        {| currentInput := "0"; previousValue := Some (round10 result);
           operator := Some op2; justEvaluated := false |}
    | None =>
        {| currentInput := "Error"; previousValue := None;
           operator := None; justEvaluated := false |}
    end
  /\ previousValue (run initial [Digit D5; Operator Times; Operator Plus])
     = Some (S754_zero false)
  /\ currentInput (run initial [Digit D5; Operator Divide; Operator Divide])
     = "Error".
Proof.
  intros Hpv Hop Ht Hje Hci.
  split; [|vm_compute; split; reflexivity].
  destruct st as [ci p op je]; fields. subst ci p op je.
  unfold handleOperator, inputToNumber; fields.
  rewrite Ht. cbn [negb andb].
  change (ofString "0") with (S754_zero false).
  destruct (compute pv o (S754_zero false)); reflexivity.
Qed.

Lemma repeated_operator_applies_pending_witness :
  handleOperator "+" (run initial [Digit D5; Operator Times]) =
  {| currentInput := "0"; previousValue := Some (S754_zero false);
     operator := Some "+"; justEvaluated := false |}.
Proof.
  apply (repeated_operator_applies_pending
           (run initial [Digit D5; Operator Times]) (ofString "5") "*" "+");
    reflexivity.
Defined.

(** C9 as stated fails: the result of the pending operation is rounded
    before it is stored, so that 0.123456789012 + 0 is stored as
    0.123456789. *)
Lemma repeated_operator_rounds_result :
  let st := run initial [Dot; Digit D1; Digit D2; Digit D3; Digit D4;
                         Digit D5; Digit D6; Digit D7; Digit D8; Digit D9;
                         Digit D0; Digit D1; Digit D2; Operator Plus] in
  let pv := ofString "0.123456789012" in
  (previousValue st = Some pv /\ operator st = Some "+"
   /\ justEvaluated st = false /\ currentInput st = "0")
  /\ compute pv "+" (ofString "0") = Some pv
  /\ previousValue (step st (Operator Plus)) = Some (ofString "0.123456789")
  /\ previousValue (step st (Operator Plus)) <> compute pv "+" (ofString "0").
Proof. vm_compute. repeat split. discriminate. Qed.

(** C10: [percent] and [sign] change [currentInput] only; they leave
    [previousValue], [operator] and [justEvaluated] as they are.  So when
    [justEvaluated] is set, as it is right after an [equals] that computed
    a result, a digit typed after [percent] or [sign] starts a new input and
    the adjusted value is lost. *)
Theorem percent_and_sign_change_only_input (st : state) :
  (previousValue (handlePercent st) = previousValue st
   /\ operator (handlePercent st) = operator st
   /\ justEvaluated (handlePercent st) = justEvaluated st)
  /\ (previousValue (handleSign st) = previousValue st
      /\ operator (handleSign st) = operator st
      /\ justEvaluated (handleSign st) = justEvaluated st)
  /\ (justEvaluated st = true ->
      forall d, currentInput (handleDigit d (handlePercent st)) = d
                /\ currentInput (handleDigit d (handleSign st)) = d)
  /\ (previousValue st <> None -> truthy (operator st) = true ->
      justEvaluated (handleEquals st) = true
      /\ forall d,
           currentInput (handleDigit d (handlePercent (handleEquals st))) = d
           /\ currentInput (handleDigit d (handleSign (handleEquals st))) = d).
Proof.
  assert (forall s, justEvaluated s = true ->
          forall d, currentInput (handleDigit d (handlePercent s)) = d
                    /\ currentInput (handleDigit d (handleSign s)) = d) as Hfresh.
  { intros [ci pv op je] Hje d; fields. subst je. split.
    - reflexivity.
    - unfold handleSign; fields. destruct (ci =? "0"); reflexivity. }
  split; [destruct st; repeat split|].
  split.
  { destruct st as [ci pv op je]. unfold handleSign; fields.
    destruct (ci =? "0"); repeat split. }
  split; [apply Hfresh|].
  intros Hpv Hop.
  assert (justEvaluated (handleEquals st) = true) as Hje.
  { destruct st as [ci pv op je]. unfold handleEquals; fields.
    destruct pv as [p|]; [|congruence].
    destruct op as [o|]; [|discriminate Hop].
    rewrite Hop. reflexivity. }
  split; [exact Hje | now apply Hfresh].
Qed.

Lemma percent_and_sign_change_only_input_witness :
  let st := run initial [Digit D5; Operator Plus; Digit D3] in
  currentInput (handleDigit "7" (handlePercent (handleEquals st))) = "7"
  /\ currentInput (handleDigit "7" (handleSign (handleEquals st))) = "7".
Proof.
  intros st.
  destruct (percent_and_sign_change_only_input st) as (_ & _ & _ & Hequals).
  destruct Hequals as [_ Hdigit].
  - vm_compute. discriminate.
  - reflexivity.
  - apply Hdigit.
Defined.

(** ** Further facts: the listeners *)

Module ListenerFacts.

Import JSString Calculator Props StringFacts HelperFacts Invariants.

Lemma is_digit_key_digit (k : string) :
  is_digit_key k = true -> exists d, k = digit_key d.
Proof.
  destruct k as [|c [|c' k]]; try discriminate.
  destruct c as [[] [] [] [] [] [] [] []]; try discriminate; intros _;
    first [ now exists D0 | now exists D1 | now exists D2 | now exists D3
          | now exists D4 | now exists D5 | now exists D6 | now exists D7
          | now exists D8 | now exists D9 ].
Qed.

Lemma is_digit_key_digit_key (d : digit) : is_digit_key (digit_key d) = true.
Proof. destruct d; reflexivity. Qed.

Lemma is_operator_key_op (k : string) :
  is_operator_key k = true -> exists o, k = op_key o.
Proof.
  unfold is_operator_key. intros H.
  destruct (k =? "+") eqn:E1; [apply String.eqb_eq in E1; now exists Plus|].
  destruct (k =? "-") eqn:E2; [apply String.eqb_eq in E2; now exists Minus|].
  destruct (k =? "*") eqn:E3; [apply String.eqb_eq in E3; now exists Times|].
  destruct (k =? "/") eqn:E4; [apply String.eqb_eq in E4; now exists Divide|].
  discriminate H.
Qed.

(** What a key does, as an event: [None] for a key that is ignored. *)
Lemma onKeydown_event (k : string) :
  (forall st, fst (onKeydown k st) = st)
  \/ exists ev, from_keyboard ev = true
                /\ forall st, fst (onKeydown k st) = step st ev.
Proof.
  unfold onKeydown.
  destruct (is_digit_key k) eqn:Ed.
  { apply is_digit_key_digit in Ed as [d ->]. right. now exists (Digit d). }
  destruct (k =? ".").
  { right. now exists Dot. }
  destruct ((k =? "+") || (k =? "-") || (k =? "*") || (k =? "/")) eqn:Eo.
  { apply is_operator_key_op in Eo as [o ->]. right. now exists (Operator o). }
  destruct ((k =? "Enter") || (k =? "=")).
  { right. now exists Equals. }
  destruct (k =? "Backspace").
  { right. now exists Delete. }
  destruct (k =? "Escape").
  { right. now exists Clear. }
  now left.
Qed.

(** A session at the keyboard is a run of events without percent and
    sign. *)
Lemma type_keys_run (ks : list string) :
  exists evs, forallb from_keyboard evs = true
              /\ forall st, type_keys st ks = run st evs.
Proof.
  induction ks as [|k ks (evs & Hall & Hrun)].
  - now exists [].
  - destruct (onKeydown_event k) as [Hskip|(ev & Hev & Hstep)].
    + exists evs. split; [assumption|]. intros st.
      cbn [type_keys fold_left]. rewrite Hskip. apply Hrun.
    + exists (ev :: evs). split.
      * cbn [forallb]. now rewrite Hev.
      * intros st. cbn [type_keys fold_left run]. rewrite Hstep. apply Hrun.
Qed.

End ListenerFacts.

(** ** Further facts: what the handlers keep *)

Module HandlerFacts.

Import JSString Calculator Props StringFacts HelperFacts Invariants.

Lemma step_pending_wellformed (st : state) (ev : event) :
  pending_wellformed st -> pending_wellformed (step st ev).
Proof.
  unfold pending_wellformed. open_state st. intros [Hop Hje].
  destruct ev; cbn [step].
  - unfold handleDigit; fields.
    destruct je; fields; [|destruct (ci =? "0")]; split;
      solve [assumption | discriminate].
  - unfold handleDot; fields.
    destruct je; fields; [|destruct (negb (includes ci "."))]; split;
      solve [assumption | discriminate].
  - assert (forall p : number,
              (Some (op_key o) = None \/
               exists o', Some (op_key o) = Some (op_key o'))
              /\ (false = true -> Some p = None /\ Some (op_key o) = None))
      as Hgo.
    { intros p. split; [right; now exists o | discriminate]. }
    unfold handleOperator; fields.
    destruct pv as [p|]; [|apply Hgo].
    destruct op as [o'|]; [|apply Hgo].
    destruct (_ && _); [|apply Hgo].
    destruct (compute _ _ _); fields; [apply Hgo|].
    split; [now left | tauto].
  - unfold handleEquals; fields.
    destruct pv as [p|]; [|tauto].
    destruct op as [o'|]; [|tauto].
    destruct (truthy _); fields; [|tauto].
    split; [now left | tauto].
  - cbn. split; [now left | discriminate].
  - unfold handleDelete; fields.
    destruct je; fields; split; solve [assumption | discriminate].
  - unfold handlePercent; fields. tauto.
  - unfold handleSign; fields. destruct (ci =? "0"); fields; tauto.
Qed.

(** The entry keys leave what is pending alone. *)
Lemma step_entry_frame (st : state) (ev : event) :
  is_entry ev = true ->
  previousValue (step st ev) = previousValue st
  /\ operator (step st ev) = operator st.
Proof.
  open_state st. intros Hev.
  destruct ev; try discriminate Hev; clear Hev; cbn [step].
  - unfold handleDigit; fields. destruct je; split; reflexivity.
  - unfold handleDot; fields.
    destruct je; [|destruct (negb (includes ci "."))]; split; reflexivity.
  - unfold handleDelete; fields. destruct je; split; reflexivity.
  - split; reflexivity.
  - unfold handleSign; fields. destruct (ci =? "0"); split; reflexivity.
Qed.

Lemma run_entry_frame (evs : list event) :
  forall st, forallb is_entry evs = true ->
  previousValue (run st evs) = previousValue st
  /\ operator (run st evs) = operator st.
Proof.
  induction evs as [|ev evs IH]; intros st Hall; [split; reflexivity|].
  cbn [forallb] in Hall. apply andb_prop in Hall as [Hev Hevs].
  cbn [run fold_left].
  destruct (IH (step st ev) Hevs) as [Hp Ho].
  destruct (step_entry_frame st ev Hev) as [Hp' Ho'].
  unfold run in *. split; congruence.
Qed.

(** *** The input is not empty, as long as the sign is not toggled *)

Lemma strip_leading_zeros_nonempty (s : string) :
  s <> EmptyString -> strip_leading_zeros s <> EmptyString.
Proof.
  induction s as [|c s IH]; [congruence|]. intros _.
  cbn [strip_leading_zeros].
  destruct (Ascii.eqb_spec c "0") as [->|Hne].
  - destruct s as [|d s]; [discriminate|].
    destruct (JSNumber.is_digit d); [apply IH|]; discriminate.
  - destruct c as [[] [] [] [] [] [] [] []]; try discriminate; congruence.
Qed.

Lemma normalize_nonempty (s : string) :
  s <> EmptyString -> normalizeNumberString s <> EmptyString.
Proof.
  intros H. unfold normalizeNumberString.
  destruct (_ || _); [assumption | now apply strip_leading_zeros_nonempty].
Qed.

Lemma nonempty_length (s : string) : s <> EmptyString <-> 1 <= String.length s.
Proof. destruct s; cbn; split; intros; try congruence; lia. Qed.

Lemma clampLength_nonempty (s : string) :
  s <> EmptyString -> clampLength s max_default <> EmptyString.
Proof.
  intros H. unfold clampLength, max_default.
  destruct (Z.leb_spec (Z.of_nat (String.length s)) 14); [assumption|].
  rewrite slice_prefix by lia.
  apply nonempty_length. rewrite length_substring_0.
  change (Z.to_nat 14) with 14. lia.
Qed.

Lemma append_nonempty_r (a b : string) :
  b <> EmptyString -> a ++ b <> EmptyString.
Proof.
  intros Hb. apply nonempty_length. rewrite length_append.
  apply nonempty_length in Hb. lia.
Qed.

Lemma digit_key_nonempty (d : digit) : digit_key d <> EmptyString.
Proof. destruct d; discriminate. Qed.

Lemma length_digits_aux (fuel : nat) :
  forall n acc, String.length acc <= String.length (JSNumber.digits_aux fuel n acc).
Proof.
  induction fuel as [|f IH]; intros n acc; cbn [JSNumber.digits_aux]; [lia|].
  destruct (n <? 10)%Z; [cbn [String.length]; lia|].
  eapply Nat.le_trans; [|apply IH]. cbn [String.length]. lia.
Qed.

Lemma digits_nonempty (n : Z) : JSNumber.digits n <> EmptyString.
Proof.
  apply nonempty_length. unfold JSNumber.digits.
  cbn [JSNumber.digits_aux].
  destruct (n <? 10)%Z; [cbn [String.length]; lia|].
  eapply Nat.le_trans; [|apply length_digits_aux]. cbn [String.length]. lia.
Qed.

Lemma format_decimal_nonempty (s q : Z) :
  JSNumber.format_decimal s q <> EmptyString.
Proof.
  unfold JSNumber.format_decimal.
  pose proof (digits_nonempty s) as Hd. apply nonempty_length in Hd.
  repeat match goal with
         | |- context [if ?b then _ else _] => destruct b
         end;
    apply nonempty_length; repeat rewrite length_append;
    cbn [String.length]; lia.
Qed.

Lemma toString_nonempty (x : number) : toString x <> EmptyString.
Proof.
  destruct x as [sg|sg| |sg m e]; try destruct sg; try discriminate;
    cbn [toString append].
  unfold JSNumber.positive_toString.
  destruct (JSNumber.ratio m e) as [num den].
  destruct (JSNumber.shortest _ _ _ _ _ _) as [s q].
  destruct (JSNumber.strip_zeros _ _ _) as [s' q'].
  apply format_decimal_nonempty.
Qed.

Lemma step_nonempty (st : state) (ev : event) :
  negb (is_sign ev) = true ->
  currentInput st <> EmptyString ->
  currentInput (step st ev) <> EmptyString.
Proof.
  open_state st. intros Hev H.
  destruct ev; try discriminate Hev; clear Hev; cbn [step].
  - unfold handleDigit; fields.
    destruct je; fields; [apply digit_key_nonempty|].
    apply normalize_nonempty.
    destruct (ci =? "0"); [apply digit_key_nonempty|].
    apply clampLength_nonempty, append_nonempty_r, digit_key_nonempty.
  - unfold handleDot; fields.
    destruct je; fields; [discriminate|].
    destruct (negb (includes ci ".")); fields; [|assumption].
    apply clampLength_nonempty, append_nonempty_r. discriminate.
  - unfold handleOperator; fields.
    destruct pv as [p|]; [|discriminate].
    destruct op as [o'|]; [|discriminate].
    destruct (_ && _); [|discriminate].
    destruct (compute _ _ _); fields; discriminate.
  - unfold handleEquals; fields.
    destruct pv as [p|]; [|assumption].
    destruct op as [o'|]; [|assumption].
    destruct (truthy _); fields; [|assumption].
    destruct (compute _ _ _); [apply toString_nonempty | discriminate].
  - discriminate.
  - unfold handleDelete; fields.
    destruct je; fields; [discriminate|].
    apply normalize_nonempty.
    destruct (Nat.leb_spec (String.length ci) 1); [discriminate|].
    rewrite !slice_drop_last.
    destruct (endsWith _ _).
    + destruct (String.eqb_spec (drop_last (drop_last ci)) EmptyString);
        [discriminate | assumption].
    + apply nonempty_length. rewrite length_drop_last. lia.
  - unfold handlePercent; fields.
    apply clampLength_nonempty, toString_nonempty.
Qed.

End HandlerFacts.

(** ** Further facts: reading a decimal text as a number *)

Module ParseFacts.

Import JSString JSNumber Calculator Props StringFacts HelperFacts.

Lemma all_digits_append (a b : string) :
  all_digits (a ++ b) = all_digits a && all_digits b.
Proof.
  induction a as [|c a IH]; cbn [append all_digits]; [reflexivity|].
  rewrite IH. now rewrite andb_assoc.
Qed.

Lemma append_empty_r (a : string) : a ++ EmptyString = a.
Proof. induction a as [|c a IH]; cbn [append]; [reflexivity | now rewrite IH]. Qed.

Lemma all_digits_decimal_text (s : string) :
  all_digits s = true -> decimal_text s = true.
Proof.
  induction s as [|c s IH]; [reflexivity|]. cbn [all_digits decimal_text].
  intros H. apply andb_prop in H as [Hc Hs]. now rewrite Hc, IH.
Qed.

(** A digit or a point is no blank, no sign and no radix letter. *)
Lemma decimal_char_plain (c : ascii) :
  is_digit c || Ascii.eqb c "." = true ->
  is_space c = false
  /\ Ascii.eqb c "+" = false /\ Ascii.eqb c "-" = false
  /\ Ascii.eqb c "x" = false /\ Ascii.eqb c "X" = false
  /\ Ascii.eqb c "o" = false /\ Ascii.eqb c "O" = false
  /\ Ascii.eqb c "b" = false /\ Ascii.eqb c "B" = false
  /\ Ascii.eqb c "I" = false.
Proof.
  destruct c as [[] [] [] [] [] [] [] []]; intros H;
    try discriminate H; repeat split.
Qed.

Lemma radix_digit_zero (c : ascii) : radix_digit 0 c = None.
Proof. destruct c as [[] [] [] [] [] [] [] []]; reflexivity. Qed.

Lemma trim_end_decimal_text (s : string) :
  decimal_text s = true -> trim_end s = s.
Proof.
  induction s as [|c s IH]; [reflexivity|]. cbn [decimal_text trim_end].
  intros H. apply andb_prop in H as [Hc Hs].
  apply decimal_char_plain in Hc as (Hsp & _).
  now rewrite Hsp, IH.
Qed.

Lemma trim_start_decimal_text (s : string) :
  decimal_text s = true -> trim_start s = s.
Proof.
  destruct s as [|c s]; [reflexivity|]. cbn [decimal_text trim_start].
  intros H. apply andb_prop in H as [Hc Hs].
  apply decimal_char_plain in Hc as (Hsp & _).
  now rewrite Hsp.
Qed.

Lemma parse_nondecimal_decimal_text (s : string) :
  decimal_text s = true -> parse_nondecimal s = None.
Proof.
  destruct s as [|a [|c [|d r]]]; try reflexivity.
  - intros _. destruct a as [[] [] [] [] [] [] [] []]; reflexivity.
  - intros _. destruct a as [[] [] [] [] [] [] [] []]; reflexivity.
  - cbn [decimal_text]. intros H.
    apply andb_prop in H as [_ H]. apply andb_prop in H as [Hc _].
    apply decimal_char_plain in Hc
      as (_ & _ & _ & Hx & HX & Ho & HO & Hb & HB & _).
    assert (parse_nondecimal (String "0" (String c (String d r))) = None)
      as H0.
    { cbn [parse_nondecimal]. rewrite Hx, HX, Ho, HO, Hb, HB.
      cbn [orb radix_value]. now rewrite radix_digit_zero. }
    destruct a as [[] [] [] [] [] [] [] []]; try reflexivity. exact H0.
Qed.

(** A text of digits and points, when not empty, is read as an unsigned
    decimal literal. *)
Lemma ofString_decimal_text (s : string) :
  decimal_text s = true -> s <> EmptyString ->
  ofString s = parse_unsigned false s.
Proof.
  intros Hd Hne. unfold ofString.
  rewrite trim_start_decimal_text, trim_end_decimal_text by assumption.
  destruct (String.eqb_spec s EmptyString); [contradiction|].
  rewrite parse_nondecimal_decimal_text by assumption.
  destruct s as [|c r]; [contradiction|].
  cbn [decimal_text] in Hd. apply andb_prop in Hd as [Hc _].
  apply decimal_char_plain in Hc as (_ & Hp & Hm & _).
  destruct c as [[] [] [] [] [] [] [] []]; try reflexivity;
    discriminate.
Qed.

Lemma ofString_minus_decimal_text (s : string) :
  decimal_text s = true -> s <> EmptyString ->
  ofString (String "-" s) = parse_unsigned true s.
Proof.
  intros Hd Hne. unfold ofString.
  cbn [trim_start]. change (is_space "-") with false. cbv iota.
  cbn [trim_end]. change (is_space "-") with false. cbn [andb].
  rewrite trim_end_decimal_text by assumption.
  replace (parse_nondecimal (String "-" s)) with (@None number)
    by reflexivity.
  reflexivity.
Qed.

(** *** The sign of a decimal carries over to its value *)

Lemma binary_round_aux_opp (m e : Z) (l : location) :
  binary_round_aux prec emax true m e l =
  SFopp (binary_round_aux prec emax false m e l).
Proof.
  unfold binary_round_aux.
  destruct (shr_fexp prec emax m e l) as [mrs e'].
  destruct (shr_fexp prec emax _ e' loc_Exact) as [mrs' e''].
  destruct (shr_m mrs'); [reflexivity | | reflexivity].
  destruct (e'' <=? emax - prec)%Z; reflexivity.
Qed.

Lemma of_decimal_opp (m e : Z) :
  of_decimal true m e = SFopp (of_decimal false m e).
Proof.
  unfold of_decimal. destruct m as [|p|p]; try reflexivity.
  destruct (310 <=? _)%Z; [reflexivity|].
  destruct (_ <=? -324)%Z; [reflexivity|].
  destruct (0 <=? e)%Z.
  - unfold binary_round. destruct (shl_align _ _ _) as [mz ez].
    apply binary_round_aux_opp.
  - unfold SFdiv. destruct (SFdiv_core_binary _ _ _ _ _ _) as [[mz ez] lz].
    apply binary_round_aux_opp.
Qed.

Lemma parse_unsigned_opp (s : string) :
  parse_unsigned true s = SFopp (parse_unsigned false s).
Proof.
  unfold parse_unsigned.
  destruct (s =? "Infinity"); [reflexivity|].
  destruct (span_digits s) as [ip r1].
  destruct (match r1 with
            | String "." t => span_digits t
            | _ => (EmptyString, r1)
            end) as [fp r2].
  destruct (_ && _); [reflexivity|].
  destruct (parse_exponent r2); [apply of_decimal_opp | reflexivity].
Qed.

(** *** Leading zeros do not change the value *)

Lemma span_digits_digit (d : ascii) (r : string) :
  is_digit d = true ->
  exists ip r1, span_digits (String d r) = (String d ip, r1).
Proof.
  intros Hd. cbn [span_digits]. rewrite Hd.
  destruct (span_digits r) as [ip r1]. now exists ip, r1.
Qed.

Lemma parse_unsigned_leading_zero (neg : bool) (d : ascii) (r : string) :
  is_digit d = true ->
  parse_unsigned neg (String "0" (String d r)) =
  parse_unsigned neg (String d r).
Proof.
  intros Hd. unfold parse_unsigned.
  replace (String "0" (String d r) =? "Infinity") with false by reflexivity.
  replace (String d r =? "Infinity") with false.
  2:{ cbn [String.eqb].
      pose proof (decimal_char_plain d) as H. rewrite Hd in H.
      destruct (H eq_refl) as (_ & _ & _ & _ & _ & _ & _ & _ & _ & HI).
      now rewrite HI. }
  destruct (span_digits_digit d r Hd) as (ip & r1 & Hsp).
  assert (span_digits (String "0" (String d r)) = (String "0" (String d ip), r1))
    as Hsp0.
  { change (span_digits (String "0" (String d r)))
      with (let '(x, y) := span_digits (String d r) in (String "0" x, y)).
    now rewrite Hsp. }
  rewrite Hsp0, Hsp.
  destruct (match r1 with
            | String "." t => span_digits t
            | _ => (EmptyString, r1)
            end) as [fp r2].
  cbn [String.eqb andb].
  destruct (parse_exponent r2); reflexivity.
Qed.

Lemma ofString_strip_leading_zeros (s : string) :
  decimal_text s = true ->
  ofString (strip_leading_zeros s) = ofString s.
Proof.
  induction s as [|c s IH]; [reflexivity|]. intros Hd.
  cbn [strip_leading_zeros].
  destruct (Ascii.eqb_spec c "0") as [->|Hne].
  - destruct s as [|d s]; [reflexivity|].
    destruct (is_digit d) eqn:Ed; [|reflexivity].
    assert (decimal_text (String d s) = true) as Hd'.
    { cbn [decimal_text] in Hd. now apply andb_prop in Hd as [_ Hd]. }
    rewrite IH by assumption.
    rewrite (ofString_decimal_text (String d s)) by (assumption || discriminate).
    rewrite (ofString_decimal_text (String "0" (String d s)))
      by (assumption || discriminate).
    symmetry. now apply parse_unsigned_leading_zero.
  - destruct c as [[] [] [] [] [] [] [] []]; try reflexivity; congruence.
Qed.

(** *** The value of a text of digits *)

Lemma span_digits_all_digits (s : string) :
  all_digits s = true -> span_digits s = (s, EmptyString).
Proof.
  induction s as [|c s IH]; [reflexivity|]. cbn [all_digits span_digits].
  intros H. apply andb_prop in H as [Hc Hs]. now rewrite Hc, IH.
Qed.

Lemma ofString_all_digits (s : string) :
  all_digits s = true -> s <> EmptyString ->
  ofString s = of_decimal false (digits_value 0 s) 0.
Proof.
  intros Ha Hne.
  rewrite ofString_decimal_text by (auto using all_digits_decimal_text).
  unfold parse_unsigned.
  replace (s =? "Infinity") with false.
  2:{ destruct s as [|c r]; [contradiction|]. cbn [all_digits] in Ha.
      apply andb_prop in Ha as [Hc _]. cbn [String.eqb].
      pose proof (decimal_char_plain c) as H. rewrite Hc in H.
      destruct (H eq_refl) as (_ & _ & _ & _ & _ & _ & _ & _ & _ & HI).
      now rewrite HI. }
  rewrite span_digits_all_digits by assumption.
  destruct (String.eqb_spec s EmptyString); [contradiction|].
  cbn [andb parse_exponent String.length]. now rewrite append_empty_r.
Qed.

Lemma digits_value_append (a b : string) :
  forall acc, digits_value acc (a ++ b) = digits_value (digits_value acc a) b.
Proof.
  induction a as [|c a IH]; intros acc; cbn [append digits_value];
    [reflexivity | apply IH].
Qed.

Lemma digits_value_digit_key (acc : Z) (d : digit) :
  digits_value acc (digit_key d) = (10 * acc + digit_num d)%Z.
Proof. destruct d; reflexivity. Qed.

End ParseFacts.

(** ** Further facts: how the keys compose *)

Module KeyFacts.

Import JSString JSNumber Calculator Props StringFacts HelperFacts Invariants.
Import ListenerFacts HandlerFacts ParseFacts.

Lemma substring_0_whole (n : nat) (s : string) :
  String.length s <= n -> substring 0 n s = s.
Proof.
  revert n. induction s as [|c s IH]; intros [|n] H; cbn in *;
    try reflexivity; try lia.
  rewrite IH by lia. reflexivity.
Qed.

Lemma includes_point_snoc (s : string) : includes (s ++ ".") "." = true.
Proof.
  destruct (includes (s ++ ".") ".") eqn:E; [reflexivity|].
  apply includes_dot_count in E. rewrite count_append in E.
  cbn in E. lia.
Qed.

(** Clamping a text of exactly 14 characters with one more appended gives
    the text back. *)
Lemma clampLength_full (s x : string) :
  String.length s = 14 -> x <> EmptyString ->
  clampLength (s ++ x) max_default = s.
Proof.
  intros Hs Hx. unfold clampLength, max_default.
  apply nonempty_length in Hx.
  destruct (Z.leb_spec (Z.of_nat (String.length (s ++ x))) 14) as [H|H].
  - rewrite length_append in H. lia.
  - rewrite slice_prefix by lia. change (Z.to_nat 14) with 14.
    rewrite <- Hs. apply substring_0_append.
Qed.

Lemma clampLength_short (s : string) :
  String.length s <= 14 -> clampLength s max_default = s.
Proof.
  intros H. unfold clampLength, max_default.
  destruct (Z.leb_spec (Z.of_nat (String.length s)) 14); [reflexivity | lia].
Qed.

(** A digit typed after "0" replaces it; typed after anything else that
    has no redundant zero and leaves room, it is appended. *)
Lemma handleDigit_replaces_zero (d : digit) (pv : option number)
    (op : option string) :
  handleDigit (digit_key d)
    {| currentInput := "0"; previousValue := pv; operator := op;
       justEvaluated := false |} =
  {| currentInput := digit_key d; previousValue := pv; operator := op;
     justEvaluated := false |}.
Proof. destruct d; reflexivity. Qed.

Lemma handleDigit_appends (d : digit) (ci : string) (pv : option number)
    (op : option string) :
  canonical_zero ci = true -> ci <> "0" -> String.length ci < 14 ->
  handleDigit (digit_key d)
    {| currentInput := ci; previousValue := pv; operator := op;
       justEvaluated := false |} =
  {| currentInput := ci ++ digit_key d; previousValue := pv; operator := op;
     justEvaluated := false |}.
Proof.
  intros Hc Hne Hlen. unfold handleDigit; fields.
  destruct (String.eqb_spec ci "0"); [contradiction|].
  rewrite clampLength_short
    by (rewrite length_append, length_digit_key; lia).
  rewrite normalize_canonical; [reflexivity|].
  apply canonical_zero_append; auto using canonical_zero_digit_key.
Qed.

Lemma type_digits_value (ds : list digit) :
  forall ci pv op,
    all_digits ci = true -> ci <> EmptyString -> canonical_zero ci = true ->
    digits_measure ci + List.length ds <= 14 ->
    let st' := run {| currentInput := ci; previousValue := pv;
                      operator := op; justEvaluated := false |}
                   (map Digit ds) in
    all_digits (currentInput st') = true
    /\ currentInput st' <> EmptyString
    /\ digits_value 0 (currentInput st') =
       fold_left (fun acc d => (10 * acc + digit_num d)%Z) ds
                 (digits_value 0 ci).
Proof.
  induction ds as [|d ds IH]; intros ci pv op Ha Hne Hc Hm; [now repeat split|].
  cbn [map run fold_left step List.length] in *.
  unfold digits_measure in Hm.
  destruct (String.eqb_spec ci "0") as [->|Hz].
  - rewrite handleDigit_replaces_zero.
    replace (10 * digits_value 0 "0" + digit_num d)%Z
      with (digits_value 0 (digit_key d)) by (destruct d; reflexivity).
    apply IH.
    + destruct d; reflexivity.
    + apply digit_key_nonempty.
    + apply canonical_zero_digit_key.
    + unfold digits_measure.
      destruct (digit_key d =? "0"); [lia | rewrite length_digit_key; lia].
  - rewrite handleDigit_appends by (assumption || lia).
    replace (10 * digits_value 0 ci + digit_num d)%Z
      with (digits_value 0 (ci ++ digit_key d))
      by (now rewrite digits_value_append, digits_value_digit_key).
    apply IH.
    + rewrite all_digits_append, Ha. destruct d; reflexivity.
    + apply append_nonempty_r, digit_key_nonempty.
    + apply canonical_zero_append; auto using canonical_zero_digit_key.
    + unfold digits_measure.
      destruct (_ =? "0"); [lia|].
      rewrite length_append, length_digit_key. lia.
Qed.

(** After an operator key pressed with nothing pending, the entry keys keep
    the operand and the operator that were stored. *)
Lemma pending_after_entries (st : state) (o : opkey) (edits : list event) :
  previousValue st = None -> forallb is_entry edits = true ->
  previousValue (run (step st (Operator o)) edits) = Some (inputToNumber st)
  /\ operator (run (step st (Operator o)) edits) = Some (op_key o).
Proof.
  intros Hpv Hedits.
  destruct (run_entry_frame edits (step st (Operator o)) Hedits) as [Hp Ho].
  rewrite Hp, Ho. cbn [step]. unfold handleOperator. rewrite Hpv.
  split; reflexivity.
Qed.

Lemma truthy_op_key (o : opkey) : truthy (Some (op_key o)) = true.
Proof. destruct o; reflexivity. Qed.

Lemma handleEquals_pending (st : state) (a : number) (o : opkey) :
  previousValue st = Some a -> operator st = Some (op_key o) ->
  handleEquals st =
  {| currentInput :=
       match compute a (op_key o) (inputToNumber st) with
       | Some result => toString (round10 result)
       | None => "Error"
       end;
     previousValue := None; operator := None; justEvaluated := true |}.
Proof.
  intros Hp Ho. unfold handleEquals. rewrite Hp, Ho, truthy_op_key.
  destruct (compute _ _ _); reflexivity.
Qed.

Lemma compute_nan (o : opkey) (b : number) :
  compute S754_nan (op_key o) b = Some S754_nan
  \/ compute S754_nan (op_key o) b = None.
Proof.
  destruct o; cbn.
  - left. destruct b; reflexivity.
  - left. destruct b; reflexivity.
  - left. destruct b; reflexivity.
  - destruct (is_zero b); [now right|]. left. destruct b; reflexivity.
Qed.

Lemma from_keyboard_not_sign (ev : event) :
  from_keyboard ev = true -> negb (is_sign ev) = true.
Proof. destruct ev; (reflexivity || discriminate). Qed.

Lemma handleDelete_snoc (t : string) (c : ascii) (pv : option number)
    (op : option string) :
  t <> EmptyString -> endsWith t "." = false -> canonical_zero t = true ->
  handleDelete {| currentInput := t ++ String c EmptyString;
                  previousValue := pv; operator := op;
                  justEvaluated := false |} =
  {| currentInput := t; previousValue := pv; operator := op;
     justEvaluated := false |}.
Proof.
  intros Hne Hend Hc. unfold handleDelete; fields.
  destruct (Nat.leb_spec (String.length (t ++ String c EmptyString)) 1)
    as [Hl|_].
  - rewrite length_append in Hl. apply nonempty_length in Hne.
    cbn [String.length] in Hl. lia.
  - rewrite slice_drop_last, drop_last_snoc, Hend.
    now rewrite normalize_canonical.
Qed.

End KeyFacts.

(** ** Further properties of the calculator *)

Import ListenerFacts HandlerFacts ParseFacts KeyFacts.

(** X1: the keydown listener ignores a key or runs the handler of a digit,
    the point, an operator, equals, delete or clear, the same for every
    state; percent and sign are out of reach of the keyboard.  It calls
    [preventDefault] for "Enter" and "=" only. *)
Theorem keydown_dispatch (k : string) :
  ((forall st, fst (onKeydown k st) = st)
   \/ exists ev, from_keyboard ev = true
                 /\ forall st, fst (onKeydown k st) = step st ev)
  /\ forall st, snd (onKeydown k st) = (k =? "Enter") || (k =? "=").
Proof.
  split; [apply onKeydown_event|].
  intros st. unfold onKeydown.
  destruct (is_digit_key k) eqn:Ed.
  { apply is_digit_key_digit in Ed as [d ->]. destruct d; reflexivity. }
  destruct (k =? ".") eqn:E1.
  { apply String.eqb_eq in E1. now subst k. }
  destruct ((k =? "+") || (k =? "-") || (k =? "*") || (k =? "/")) eqn:Eo.
  { apply is_operator_key_op in Eo as [o ->]. destruct o; reflexivity. }
  destruct ((k =? "Enter") || (k =? "=")); [reflexivity|].
  destruct (k =? "Backspace"); [reflexivity|].
  destruct (k =? "Escape"); reflexivity.
Qed.

(** X2: the click listener and the events correspond: every event is
    raised by some button, and a click on any button, whatever its
    [data-value] and [data-action], is ignored or raises one event. *)
Theorem click_dispatch :
  (forall ev, exists val action,
      forall st, onClick (Some (val, action)) st = step st ev)
  /\ (forall btn,
        (forall st, onClick btn st = st)
        \/ exists ev, forall st, onClick btn st = step st ev).
Proof.
  split.
  - intros [d| |o| | | | |].
    + exists (Some (digit_key d)), None. destruct d; reflexivity.
    + now exists (Some "."), None.
    + exists (Some (op_key o)), None. destruct o; reflexivity.
    + now exists None, (Some "equals").
    + now exists None, (Some "clear").
    + now exists None, (Some "delete").
    + now exists None, (Some "percent").
    + now exists None, (Some "sign").
  - intros [[val action]|]; [|now left].
    assert ((forall st,
               match action with
               | Some a =>
                   if a =? "clear" then handleClear st
                   else if a =? "delete" then handleDelete st
                   else if a =? "equals" then handleEquals st
                   else if a =? "percent" then handlePercent st
                   else if a =? "sign" then handleSign st
                   else st
               | None => st
               end = st)
            \/ exists ev, forall st,
                 match action with
                 | Some a =>
                     if a =? "clear" then handleClear st
                     else if a =? "delete" then handleDelete st
                     else if a =? "equals" then handleEquals st
                     else if a =? "percent" then handlePercent st
                     else if a =? "sign" then handleSign st
                     else st
                 | None => st
                 end = step st ev) as Hact.
    { destruct action as [a|]; [|now left].
      destruct (a =? "clear"); [right; now exists Clear|].
      destruct (a =? "delete"); [right; now exists Delete|].
      destruct (a =? "equals"); [right; now exists Equals|].
      destruct (a =? "percent"); [right; now exists Percent|].
      destruct (a =? "sign"); [right; now exists Sign|].
      now left. }
    unfold onClick. destruct val as [v|]; [|exact Hact].
    destruct (negb (v =? EmptyString)); [|exact Hact].
    destruct (is_digit_key v) eqn:Ed.
    { apply is_digit_key_digit in Ed as [d ->]. right. now exists (Digit d). }
    destruct (v =? "."); [right; now exists Dot|].
    destruct (is_operator_key v) eqn:Eo; [|exact Hact].
    apply is_operator_key_op in Eo as [o ->]. right. now exists (Operator o).
Qed.

(** X3: whatever is typed at the keyboard, starting from the initial
    state, the input is never empty, has no redundant leading zero and has
    at most one decimal point. *)
Theorem keyboard_input_wellformed (ks : list string) :
  currentInput (type_keys initial ks) <> EmptyString
  /\ canonical_zero (currentInput (type_keys initial ks)) = true
  /\ count "." (currentInput (type_keys initial ks)) <= 1.
Proof.
  destruct (type_keys_run ks) as (evs & Hall & Hrun). rewrite Hrun.
  repeat split.
  - apply (run_invariant from_keyboard
             (fun st => currentInput st <> EmptyString));
      [|assumption|discriminate].
    intros st ev Hev. apply step_nonempty. now apply from_keyboard_not_sign.
  - apply (run_invariant from_keyboard
             (fun st => canonical_zero (currentInput st) = true));
      [|assumption|reflexivity].
    intros st ev Hev. apply step_canonical_zero.
    now apply from_keyboard_not_sign.
  - apply (run_invariant_all (fun st => count "." (currentInput st) <= 1));
      [apply step_one_dot | cbn; lia].
Qed.

(** X4: in every reachable state the pending operator is [null] or one of
    the four operator keys, and while [justEvaluated] is set nothing is
    pending. *)
Theorem pending_wellformed_reachable (evs : list event) :
  (operator (run initial evs) = None
   \/ exists o, operator (run initial evs) = Some (op_key o))
  /\ (justEvaluated (run initial evs) = true ->
      previousValue (run initial evs) = None
      /\ operator (run initial evs) = None).
Proof.
  apply (run_invariant_all pending_wellformed).
  - apply step_pending_wellformed.
  - split; [now left | discriminate].
Qed.

Lemma pending_wellformed_reachable_witness :
  previousValue (run initial [Digit D5; Operator Plus; Digit D3; Equals]) = None
  /\ operator (run initial [Digit D5; Operator Plus; Digit D3; Equals]) = None.
Proof.
  apply (pending_wellformed_reachable
           [Digit D5; Operator Plus; Digit D3; Equals]).
  reflexivity.
Defined.

(** X5: in every reachable state [render] writes an empty top line when no
    operator is pending, and otherwise the pending operand, a space and
    the symbol of the pending operator; the bottom line is the input. *)
Theorem render_shows_pending (evs : list event) :
  let st := run initial evs in
  (operator st = None -> render st = (EmptyString, currentInput st))
  /\ (forall o, operator st = Some o ->
        exists p, previousValue st = Some p
                  /\ render st = (toString p ++ " " ++ prettyOp o,
                                  currentInput st)
                  /\ fst (render st) <> EmptyString).
Proof.
  intros st.
  assert (operand_pending st) as Hop.
  { apply run_invariant_all; [apply step_operand_pending|].
    intros F. exfalso. now apply F. }
  assert (pending_wellformed st) as [Hwf _].
  { apply run_invariant_all; [apply step_pending_wellformed|].
    split; [now left | discriminate]. }
  unfold operand_pending in Hop.
  destruct st as [ci pv op je]; fields. split.
  - intros ->. unfold render; fields. destruct pv; reflexivity.
  - intros o ->. destruct pv as [p|]; [|exfalso; now apply Hop].
    exists p. split; [reflexivity|].
    destruct Hwf as [F|[o' Ho']]; [discriminate|].
    injection Ho' as ->.
    unfold render; fields. rewrite truthy_op_key.
    split; [reflexivity|]. cbn [fst].
    apply append_nonempty_r. discriminate.
Qed.

Lemma render_shows_pending_witness :
  let st := run initial [Digit D5; Operator Plus] in
  exists p, previousValue st = Some p
            /\ render st = (toString p ++ " " ++ prettyOp "+", currentInput st)
            /\ fst (render st) <> EmptyString.
Proof.
  intros st.
  destruct (render_shows_pending [Digit D5; Operator Plus]) as [_ H].
  apply H. reflexivity.
Defined.

(** X6: normalizing a text twice is the same as normalizing it once. *)
Theorem normalize_idempotent (s : string) :
  normalizeNumberString (normalizeNumberString s) = normalizeNumberString s.
Proof.
  assert (forall t, strip_leading_zeros (strip_leading_zeros t)
                    = strip_leading_zeros t) as Hstrip.
  { induction t as [|c t IH]; [reflexivity|].
    cbn [strip_leading_zeros].
    destruct (Ascii.eqb_spec c "0") as [->|Hne].
    - destruct t as [|d t]; [reflexivity|].
      destruct (JSNumber.is_digit d) eqn:Ed; [exact IH|].
      cbn [strip_leading_zeros]. now rewrite Ed.
    - destruct c as [[] [] [] [] [] [] [] []]; try reflexivity; congruence. }
  destruct ((s =? "0") || startsWith s "0.") eqn:E.
  - assert (normalizeNumberString s = s) as ->
      by (unfold normalizeNumberString; now rewrite E).
    unfold normalizeNumberString. now rewrite E.
  - assert (normalizeNumberString s = strip_leading_zeros s) as ->
      by (unfold normalizeNumberString; now rewrite E).
    clear E. unfold normalizeNumberString.
    destruct (_ || _); [reflexivity | apply Hstrip].
Qed.

(** X7: normalizing a text of digits and decimal points does not change the
    number it is read as. *)
Theorem normalize_preserves_value (s : string) :
  decimal_text s = true ->
  ofString (normalizeNumberString s) = ofString s.
Proof.
  intros Hd. unfold normalizeNumberString.
  destruct (_ || _); [reflexivity | now apply ofString_strip_leading_zeros].
Qed.

Lemma normalize_preserves_value_witness :
  ofString (normalizeNumberString "0012.5") = ofString "0012.5".
Proof. apply normalize_preserves_value. reflexivity. Defined.

(** X8: [compute] returns [null] for a division by zero, positive or
    negative, and in no other case. *)
Theorem compute_null_iff (a b : number) (op : string) :
  compute a op b = None <-> op = "/" /\ is_zero b = true.
Proof.
  unfold compute.
  destruct (op =? "+") eqn:E1.
  { apply String.eqb_eq in E1. subst op. split; [discriminate|].
    intros [F _]. discriminate F. }
  destruct (op =? "-") eqn:E2.
  { apply String.eqb_eq in E2. subst op. split; [discriminate|].
    intros [F _]. discriminate F. }
  destruct (op =? "*") eqn:E3.
  { apply String.eqb_eq in E3. subst op. split; [discriminate|].
    intros [F _]. discriminate F. }
  destruct (op =? "/") eqn:E4.
  - apply String.eqb_eq in E4. subst op.
    destruct (is_zero b); split; try tauto; try discriminate.
    intros [_ F]. discriminate F.
  - apply String.eqb_neq in E4. split; [discriminate | tauto].
Qed.

(** X9: pressing equals twice is pressing it once: the second press finds
    nothing pending and changes nothing. *)
Theorem equals_idempotent (st : state) :
  handleEquals (handleEquals st) = handleEquals st.
Proof.
  destruct st as [ci pv op je].
  destruct pv as [p|]; [|reflexivity].
  destruct op as [o|]; [|reflexivity].
  set (st0 := {| currentInput := ci; previousValue := Some p;
                 operator := Some o; justEvaluated := je |}).
  destruct (truthy (Some o)) eqn:E.
  - assert (exists c, handleEquals st0 = mkState c None None true) as [c ->].
    { eexists. unfold handleEquals, st0; fields. rewrite E. reflexivity. }
    reflexivity.
  - assert (handleEquals st0 = st0) as Hn.
    { unfold handleEquals, st0; fields. now rewrite E. }
    now rewrite !Hn.
Qed.

(** X10: delete undoes the digit or the point that was just entered: when
    [justEvaluated] is false and the input has no redundant leading zero,
    is shorter than 14 characters and does not end with a point, a digit
    followed by delete gives the state back; so does a point followed by
    delete when the input has no point yet. *)
Theorem delete_undoes_entry (st : state) :
  justEvaluated st = false -> canonical_zero (currentInput st) = true ->
  currentInput st <> EmptyString -> String.length (currentInput st) < 14 ->
  endsWith (currentInput st) "." = false ->
  (forall d, handleDelete (handleDigit (digit_key d) st) = st)
  /\ (includes (currentInput st) "." = false ->
      handleDelete (handleDot st) = st).
Proof.
  destruct st as [ci pv op je]; fields. intros -> Hc Hne Hlen Hend. split.
  - intros d. destruct (String.eqb_spec ci "0") as [->|Hz].
    + destruct d; reflexivity.
    + rewrite handleDigit_appends by assumption.
      destruct d; now apply handleDelete_snoc.
  - intros Hinc. unfold handleDot; fields. rewrite Hinc. cbn [negb].
    rewrite clampLength_short by (rewrite length_append; cbn; lia).
    now apply handleDelete_snoc.
Qed.

Lemma delete_undoes_entry_witness :
  let st := run initial [Digit D1; Dot; Digit D5] in
  handleDelete (handleDigit (digit_key D7) st) = st.
Proof.
  intros st.
  destruct (delete_undoes_entry st) as [H _];
    [reflexivity | reflexivity | discriminate | cbn; lia | reflexivity
    | apply H].
Defined.

(** X11: when the input does not begin with "-", pressing the sign key
    twice gives the state back. *)
Theorem sign_twice (st : state) :
  startsWith (currentInput st) "-" = false ->
  handleSign (handleSign st) = st.
Proof.
  destruct st as [ci pv op je]; fields. intros Hs.
  unfold handleSign at 2; fields.
  destruct (ci =? "0") eqn:E.
  - unfold handleSign; fields. now rewrite E.
  - rewrite Hs. unfold handleSign; fields.
    cbn [append String.eqb Ascii.eqb Bool.eqb].
    replace (startsWith (String "-" ci) "-") with true
      by (destruct ci; reflexivity).
    now rewrite slice_tail.
Qed.

Lemma sign_twice_witness :
  handleSign (handleSign (run initial [Digit D5])) = run initial [Digit D5].
Proof. apply sign_twice. reflexivity. Defined.

(** X12: on an input of digits and decimal points other than "0", the sign
    key negates the number the input is read as. *)
Theorem sign_negates_value (st : state) :
  decimal_text (currentInput st) = true ->
  currentInput st <> EmptyString -> currentInput st <> "0" ->
  inputToNumber (handleSign st) = SFopp (inputToNumber st).
Proof.
  destruct st as [ci pv op je]; fields. intros Hd Hne Hz.
  unfold handleSign, inputToNumber; fields.
  destruct (String.eqb_spec ci "0"); [contradiction|]. fields.
  replace (startsWith ci "-") with false.
  - cbn [append]. rewrite ofString_minus_decimal_text by assumption.
    rewrite ofString_decimal_text by assumption.
    apply parse_unsigned_opp.
  - destruct ci as [|c r]; [contradiction|].
    cbn [decimal_text] in Hd. apply andb_prop in Hd as [Hc _].
    apply decimal_char_plain in Hc as (_ & _ & Hm & _).
    unfold startsWith. cbn [String.prefix].
    destruct (ascii_dec "-" c) as [<-|_]; [discriminate Hm | reflexivity].
Qed.

Lemma sign_negates_value_witness :
  inputToNumber (handleSign (run initial [Digit D1; Dot; Digit D5])) =
  SFopp (inputToNumber (run initial [Digit D1; Dot; Digit D5])).
Proof. apply sign_negates_value; [reflexivity | discriminate | discriminate]. Defined.

(** X13: when the input has exactly 14 characters and [justEvaluated] is
    false, a further point changes nothing, and neither does a further
    digit if the input has no redundant leading zero. *)
Theorem full_display_ignores_entry (st : state) :
  justEvaluated st = false -> String.length (currentInput st) = 14 ->
  handleDot st = st
  /\ (canonical_zero (currentInput st) = true ->
      forall d, handleDigit (digit_key d) st = st).
Proof.
  destruct st as [ci pv op je]; fields. intros -> Hlen. split.
  - unfold handleDot; fields.
    destruct (negb (includes ci ".")); [|reflexivity].
    rewrite clampLength_full by (assumption || discriminate). reflexivity.
  - intros Hc d. unfold handleDigit; fields.
    destruct (String.eqb_spec ci "0") as [->|_]; [discriminate Hlen|].
    rewrite clampLength_full by (auto using digit_key_nonempty).
    now rewrite normalize_canonical.
Qed.

Lemma full_display_ignores_entry_witness :
  let st := run initial [Digit D1; Digit D2; Digit D3; Digit D4; Digit D5;
                         Digit D6; Digit D7; Digit D8; Digit D9; Digit D0;
                         Digit D1; Digit D2; Digit D3; Digit D4] in
  handleDot st = st /\ forall d, handleDigit (digit_key d) st = st.
Proof.
  intros st.
  destruct (full_display_ignores_entry st eq_refl eq_refl) as [Hdot Hdigit].
  split; [exact Hdot | apply Hdigit; reflexivity].
Defined.

(** X14: typing at most 14 digits from the initial state leaves an input
    that is read as the number the digits denote. *)
Theorem typed_digits_value (ds : list digit) :
  List.length ds <= 14 ->
  inputToNumber (run initial (map Digit ds)) =
  of_decimal false (number_of_digits ds) 0.
Proof.
  intros Hlen.
  destruct (type_digits_value ds "0" None None) as (Ha & Hne & Hv);
    try reflexivity; try discriminate.
  { unfold digits_measure. cbn. lia. }
  unfold inputToNumber. fold initial in Ha, Hne, Hv.
  rewrite ofString_all_digits by assumption.
  now rewrite Hv.
Qed.

Lemma typed_digits_value_witness :
  inputToNumber (run initial (map Digit [D0; D0; D4; D2; D0])) =
  of_decimal false (number_of_digits [D0; D0; D4; D2; D0]) 0.
Proof. apply typed_digits_value. cbn. lia. Defined.

(** X15: an operator pressed with nothing pending, then any entry keys,
    then equals: the display shows the operator applied to the number that
    was on display and the number entered, rounded to 10 decimals, or
    "Error" for a division by zero; nothing is pending afterwards. *)
Theorem binary_operation_result (st : state) (o : opkey)
    (edits : list event) :
  previousValue st = None -> forallb is_entry edits = true ->
  let st1 := run (step st (Operator o)) edits in
  step st1 Equals =
  {| currentInput :=
       match compute (inputToNumber st) (op_key o) (inputToNumber st1) with
       | Some result => toString (round10 result)
       | None => "Error"
       end;
     previousValue := None; operator := None; justEvaluated := true |}.
Proof.
  intros Hpv Hedits st1.
  destruct (pending_after_entries st o edits Hpv Hedits) as [Hp Ho].
  cbn [step]. now apply handleEquals_pending.
Qed.

Lemma binary_operation_result_witness :
  currentInput
    (step (run (step initial (Operator Minus)) [Digit D7; Dot; Digit D5; Sign])
          Equals) = "7.5".
Proof.
  rewrite (binary_operation_result initial Minus
             [Digit D7; Dot; Digit D5; Sign]); reflexivity.
Defined.

(** X16: an operator pressed while "Error" is displayed takes NaN as its
    operand: whatever is entered next, equals shows "NaN" (or "Error" again
    for a division by zero). *)
Theorem error_operand_propagates (st : state) (o : opkey)
    (edits : list event) :
  currentInput st = "Error" -> previousValue st = None ->
  forallb is_entry edits = true ->
  let shown := currentInput (step (run (step st (Operator o)) edits) Equals) in
  shown = "NaN" \/ shown = "Error".
Proof.
  intros Hci Hpv Hedits shown. subst shown.
  destruct (pending_after_entries st o edits Hpv Hedits) as [Hp Ho].
  assert (inputToNumber st = S754_nan) as Hn
    by (unfold inputToNumber; now rewrite Hci).
  rewrite Hn in Hp.
  assert (forall x, step x Equals = handleEquals x) as -> by reflexivity.
  rewrite (handleEquals_pending _ _ _ Hp Ho); fields.
  destruct (compute_nan o (inputToNumber (run (step st (Operator o)) edits)))
    as [-> | ->]; [left; reflexivity | right; reflexivity].
Qed.

Lemma error_operand_propagates_witness :
  let st := run initial [Digit D5; Operator Divide; Digit D0; Equals] in
  let shown := currentInput
                 (step (run (step st (Operator Plus)) [Digit D3]) Equals) in
  shown = "NaN" \/ shown = "Error".
Proof.
  apply (error_operand_propagates
           (run initial [Digit D5; Operator Divide; Digit D0; Equals])
           Plus [Digit D3]); reflexivity.
Defined.

(** X17: pressing the point twice is pressing it once. *)
Theorem dot_idempotent (st : state) :
  handleDot (handleDot st) = handleDot st.
Proof.
  destruct st as [ci pv op je].
  destruct je; [reflexivity|].
  set (st0 := {| currentInput := ci; previousValue := pv; operator := op;
                 justEvaluated := false |}).
  destruct (includes ci ".") eqn:E.
  - assert (handleDot st0 = st0) as Hn
      by (unfold handleDot, st0; fields; now rewrite E).
    now rewrite !Hn.
  - assert (handleDot st0 =
            {| currentInput := clampLength (ci ++ ".") max_default;
               previousValue := pv; operator := op;
               justEvaluated := false |}) as ->
      by (unfold handleDot, st0; fields; now rewrite E).
    unfold handleDot; fields.
    destruct (includes (clampLength (ci ++ ".") max_default) ".") eqn:E2;
      cbn [negb]; [reflexivity|].
    assert (String.length (clampLength (ci ++ ".") max_default) = 14) as Hlen.
    { unfold clampLength, max_default in *.
      destruct (Z.leb_spec (Z.of_nat (String.length (ci ++ "."))) 14) as [H|H].
      - rewrite includes_point_snoc in E2. discriminate E2.
      - rewrite slice_prefix by lia. rewrite length_substring_0.
        change (Z.to_nat 14) with 14. lia. }
    rewrite clampLength_full by (assumption || discriminate). reflexivity.
Qed.

(** X18: for a cap that is not negative, [clampLength] returns the first
    [max] characters of the text, all of it when it is shorter; clamping
    again changes nothing. *)
Theorem clampLength_prefix (s : string) (max : Z) :
  (0 <= max)%Z ->
  clampLength s max = substring 0 (Z.to_nat max) s
  /\ String.length (clampLength s max) = Nat.min (Z.to_nat max) (String.length s)
  /\ clampLength (clampLength s max) max = clampLength s max.
Proof.
  intros Hmax.
  assert (clampLength s max = substring 0 (Z.to_nat max) s) as Heq.
  { unfold clampLength.
    destruct (Z.leb_spec (Z.of_nat (String.length s)) max) as [H|H].
    - symmetry. apply substring_0_whole. lia.
    - apply slice_prefix; lia. }
  assert (String.length (clampLength s max)
          = Nat.min (Z.to_nat max) (String.length s)) as Hlen.
  { rewrite Heq. apply length_substring_0. }
  repeat split; [exact Heq | exact Hlen|].
  unfold clampLength at 1.
  destruct (Z.leb_spec (Z.of_nat (String.length (clampLength s max))) max);
    [reflexivity | lia].
Qed.

Lemma clampLength_prefix_witness :
  clampLength "12345678901234567" 14 = substring 0 14 "12345678901234567"
  /\ String.length (clampLength "12345678901234567" 14)
     = Nat.min 14 (String.length "12345678901234567")
  /\ clampLength (clampLength "12345678901234567" 14) 14
     = clampLength "12345678901234567" 14.
Proof. apply (clampLength_prefix "12345678901234567" 14). lia. Defined.

(** X19: as long as the sign key is not used, the input is never empty. *)
Theorem input_nonempty_without_sign (evs : list event) :
  forallb (fun ev => negb (is_sign ev)) evs = true ->
  currentInput (run initial evs) <> EmptyString.
Proof.
  intros Hevs.
  apply (run_invariant (fun ev => negb (is_sign ev))
           (fun st => currentInput st <> EmptyString)).
  - apply step_nonempty.
  - exact Hevs.
  - discriminate.
Qed.

Lemma input_nonempty_without_sign_witness :
  currentInput (run initial [Digit D5; Delete; Dot; Delete; Operator Minus;
                             Digit D7; Equals; Percent; Delete])
  <> EmptyString.
Proof. apply input_nonempty_without_sign. reflexivity. Defined.
